(** * mi-tienda-uy-backend: the order routes of [src/index.ts]

    A shallow embedding of the Express route handlers that create, read and
    mutate orders, together with the JavaScript and Firestore primitives
    they rely on, and the properties of the order lifecycle proved on it.

    Conventions of the model:
    - the Firestore collections are finite maps / lists of documents, and a
      handler is a function from the store (and the request) to a reply and
      the new store;
    - [FieldValue.serverTimestamp()] at the top level of a write resolves to
      the commit time, which handlers receive as [now];
    - JavaScript numbers that hold money or random draws are rationals
      ([Q]): IEEE rounding is not modelled; quantities are integers, as both
      request schemas demand ([z.number().int()]);
    - an order document always carries its two arrays: the only writer that
      creates one is [POST /orders], which stores [items: []] and
      [wishlistItems: []], so the guards [!orderData?.items] and
      [orderData.wishlistItems || []] never fire on this type. *)

From Stdlib Require Import Ascii String QArith Qround.
From stdpp Require Import gmap strings list fin_maps sorting.

Local Open Scope Z_scope.

(** ** JavaScript primitives *)

Module JS.

(** The result of [parseInt]: an integer or [NaN]. *)
Inductive num :=
| NaN
| Int (z : Z).

(** [a < b] and [a >= b] against an array length: every comparison with
    [NaN] is false. *)
Definition lt (a : num) (b : Z) : bool :=
  match a with NaN => false | Int z => z <? b end.

Definition ge (a : num) (b : Z) : bool :=
  match a with NaN => false | Int z => b <=? z end.

(** [arr[index]]: [None] is [undefined]. The property key of [NaN] or of a
    negative number names no element. *)
Definition get {A} (arr : list A) (index : num) : option A :=
  match index with
  | NaN => None
  | Int z => if z <? 0 then None else arr !! Z.to_nat z
  end.

(** [ToIntegerOrInfinity] followed by the clamping that [splice] applies
    to its start argument. *)
Definition splice_start (start : num) (len : Z) : Z :=
  match start with
  | NaN => 0
  | Int z => if z <? 0 then Z.max (len + z) 0 else Z.min z len
  end.

(** [arr.splice(start, deleteCount)]: the removed elements and what is
    left of the array. *)
Definition splice {A} (arr : list A) (start : num) (deleteCount : Z)
  : list A * list A :=
  let len := Z.of_nat (length arr) in
  let actualStart := splice_start start len in
  let actualDeleteCount := Z.min (Z.max deleteCount 0) (len - actualStart) in
  let s := Z.to_nat actualStart in
  let d := Z.to_nat actualDeleteCount in
  (take d (drop s arr), take s arr ++ drop (s + d) arr).

(** [s.charAt(pos)]: the empty string outside the string. *)
Definition charAt (s : string) (pos : Z) : string :=
  if pos <? 0 then EmptyString
  else match String.get (Z.to_nat pos) s with
       | Some c => String c EmptyString
       | None => EmptyString
       end.

(** *** [parseInt(string)] with no radix argument *)

(** Strings are sequences of ASCII characters here; of the white space
    that [parseInt] skips, the ASCII part is modelled. *)

Definition is_white_space (c : ascii) : bool :=
  let n := nat_of_ascii c in
  ((9 <=? n)%nat && (n <=? 13)%nat) || (n =? 32)%nat.

Fixpoint trim_start (s : string) : string :=
  match s with
  | String c rest => if is_white_space c then trim_start rest else s
  | EmptyString => s
  end.

Definition digit_value (c : ascii) : option Z :=
  let n := Z.of_nat (nat_of_ascii c) in
  if (48 <=? n) && (n <=? 57) then Some (n - 48)
  else if (97 <=? n) && (n <=? 122) then Some (n - 97 + 10)
  else if (65 <=? n) && (n <=? 90) then Some (n - 65 + 10)
  else None.

(** The longest prefix of radix-[R] digits, read as a number; [None]
    when that prefix is empty. *)
Fixpoint digits (R : Z) (s : string) (acc : option Z) : option Z :=
  match s with
  | String c rest =>
      match digit_value c with
      | Some d =>
          if d <? R then digits R rest (Some (default 0 acc * R + d))
          else acc
      | None => acc
      end
  | EmptyString => acc
  end.

Definition strip_sign (s : string) : Z * string :=
  match s with
  | String "-"%char rest => (-1, rest)
  | String "+"%char rest => (1, rest)
  | _ => (1, s)
  end.

Definition strip_hex_prefix (s : string) : Z * string :=
  match s with
  | String "0"%char (String "x"%char rest) => (16, rest)
  | String "0"%char (String "X"%char rest) => (16, rest)
  | _ => (10, s)
  end.

Definition parseInt (input : string) : num :=
  let '(sign, s) := strip_sign (trim_start input) in
  let '(R, s) := strip_hex_prefix s in
  match digits R s None with
  | None => NaN
  | Some n => Int (sign * n)
  end.

End JS.

(** ** Data model *)

Definition Timestamp := Z.

(** A timestamp field of a value handed to Firestore: either the
    [FieldValue.serverTimestamp()] sentinel or a stored time. *)
Inductive TimeField :=
| ServerTimestamp
| At (t : Timestamp).

Record Product := {
  product_sku : string;
  product_name : string;
  product_price : Q;
  product_description : string;
  product_image : string;
  product_colors : list string
}.

Record OrderItem := {
  productId : string;
  sku : string;
  name : string;
  price : Q;
  quantity : Z;
  color : option string;
  addedAt : TimeField
}.

Record Order := {
  clientId : string;
  status : string;
  items : list OrderItem;
  wishlistItems : list OrderItem;
  orderCode : option string;
  createdAt : Timestamp;
  updatedAt : Timestamp;
  closedAt : option Timestamp
}.

(** The two collections. [products] lists the documents in the order in
    which an unordered query returns them (by document id). *)
Record Db := {
  orders : gmap string Order;
  products : list (string * Product)
}.

Inductive ListType := buy | wishlist.

(** What [res.status(code).json(...)] sends: a success body, or
    [{ error }]. *)
Inductive Reply (A : Type) :=
| Json (code : Z) (body : A)
| Failure (code : Z) (error : string).

Arguments Json {A} code body.
Arguments Failure {A} code error.

(** ** Firestore *)

Module Firestore.

(** [doc(orderId).update(fields)] on a document the handler has just
    read. [data] is the document after the write: a handler gives the
    fields it writes their new value and copies every other field. *)
Definition update (db : Db) (orderId : string) (data : Order) : Db :=
  {| orders := <[orderId := data]> (orders db); products := products db |}.

(** [collection('orders').add(data)] with [newId] the id allocated for the
    new document: the write is a create, which fails on an existing id. *)
Definition add (db : Db) (newId : string) (data : Order) : option Db :=
  match orders db !! newId with
  | Some _ => None
  | None => Some (update db newId data)
  end.

(** [where('sku', '==', sku).limit(1).get()]. *)
Definition where_sku (db : Db) (s : string) : list (string * Product) :=
  take 1 (filter (fun doc => product_sku doc.2 = s) (products db)).

(** Documents come back ordered by document id. *)
Definition by_id (a b : string * Order) : Prop := String.leb a.1 b.1 = true.

#[global] Instance by_id_dec a b : Decision (by_id a b) :=
  bool_eq_dec (String.leb a.1 b.1) true.

Definition docs (db : Db) : list (string * Order) :=
  merge_sort by_id (map_to_list (orders db)).

(** [where('orderCode', '==', orderCode).limit(1).get()]. *)
Definition where_orderCode (db : Db) (code : string) : list (string * Order) :=
  take 1 (filter (fun doc => orderCode doc.2 = Some code) (docs db)).

(** What the Firestore client checks for each element given to
    [arrayUnion] before anything is sent: an array element may not hold a
    field transform, so a [serverTimestamp()] sentinel anywhere inside one
    makes [update] throw ("serverTimestamp() cannot be used inside of an
    array"). Only stored times pass. *)
Definition validateArrayElement (item : OrderItem) : bool :=
  match addedAt item with
  | ServerTimestamp => false
  | At _ => true
  end.

Definition time_eqb (a b : TimeField) : bool :=
  match a, b with
  | ServerTimestamp, ServerTimestamp => true
  | At t, At u => t =? u
  | _, _ => false
  end.

(** Equality of two stored map values, field by field. *)
Definition item_eqb (a b : OrderItem) : bool :=
  bool_decide (productId a = productId b)
  && bool_decide (sku a = sku b)
  && bool_decide (name a = name b)
  && Qeq_bool (price a) (price b)
  && (quantity a =? quantity b)
  && bool_decide (color a = color b)
  && time_eqb (addedAt a) (addedAt b).

(** [FieldValue.arrayUnion(...elements)] applied to the stored array:
    each element that is not already there is added at the end. *)
Definition arrayUnion (stored elements : list OrderItem) : list OrderItem :=
  fold_left
    (fun acc e => if existsb (item_eqb e) acc then acc else acc ++ [e])
    elements stored.

End Firestore.

(** ** Request schemas (zod) and [validateRequest] *)

Record AddToOrderBody := {
  add_sku : string;
  add_quantity : Z;
  add_color : option string
}.

Record UpdateOrderItemBody := {
  upd_quantity : option Z;
  upd_listType : option ListType
}.

(** [sku: z.string().min(1)], [quantity: z.number().int().positive()]. *)
Definition addToOrderSchema (body : AddToOrderBody) : bool :=
  (1 <=? Z.of_nat (String.length (add_sku body))) && (0 <? add_quantity body).

(** [quantity: z.number().int().nonnegative().optional()]; the two values
    of [listType] are the constructors of [ListType]. *)
Definition updateOrderItemSchema (body : UpdateOrderItemBody) : bool :=
  match upd_quantity body with
  | Some q => 0 <=? q
  | None => true
  end.

Definition validateRequest {B A} (schema : B -> bool) (body : B) (db : Db)
    (next : Reply A * Db) : Reply A * Db :=
  if schema body then next else (Failure 400 "Validation error", db).

(** ** The order code *)

Definition chars : string := "ABCDEFGHIJKLMNOPQRSTUVWXYZ0123456789".

(** [Math.floor(Math.random() * chars.length)] for a draw [r]. *)
Definition random_position (r : Q) : Z :=
  Qfloor (r * inject_Z (Z.of_nat (String.length chars))).

(** The [for] loop of [generateOrderCode]: [n] rounds left, [i] draws
    already taken from [random], the successive results of
    [Math.random()]. *)
Fixpoint generate_loop (random : nat -> Q) (n i : nat) (code : string) : string :=
  match n with
  | O => code
  | S n' =>
      generate_loop random n' (S i)
        (code +:+ JS.charAt chars (random_position (random i)))
  end.

Definition generateOrderCode (random : nat -> Q) : string :=
  generate_loop random 8 0 "".

(** [/^[A-Z0-9]{8}$/]. *)
Definition is_code_char (c : ascii) : bool :=
  let n := nat_of_ascii c in
  ((65 <=? n)%nat && (n <=? 90)%nat) || ((48 <=? n)%nat && (n <=? 57)%nat).

Definition matches_order_code (s : string) : bool :=
  (String.length s =? 8)%nat && forallb is_code_char (list_ascii_of_string s).

(** ** Route handlers *)

(** *** [POST /orders] *)

Record CreatedOrder := {
  created_orderId : string;
  created_orderCode : string;
  created_status : string
}.

(** [newId] is the document id that [collection('orders').add] allocates;
    [client] is the [x-client-id] header. The body's [listType] is
    validated and then ignored. Both writes are taken to succeed once the
    document can be created: a second write that fails after the first has
    committed is not modelled. *)
Definition createOrder (db : Db) (now : Timestamp) (newId : string)
    (random : nat -> Q) (client : option string) (listType : option ListType)
  : Reply CreatedOrder * Db :=
  let clientId :=
    match client with
    | Some c => if bool_decide (c = "") then "anonymous" else c
    | None => "anonymous"
    end in
  match
    Firestore.add db newId
      {| clientId := clientId; status := "pending"; items := [];
         wishlistItems := []; orderCode := None; createdAt := now;
         updatedAt := now; closedAt := None |}
  with
  | None => (Failure 500 "Document already exists", db)
  | Some db1 =>
      let orderCode := generateOrderCode random in
      let db2 :=
        Firestore.update db1 newId
          {| clientId := clientId; status := "pending"; items := [];
             wishlistItems := []; orderCode := Some orderCode;
             createdAt := now; updatedAt := now; closedAt := None |} in
      (Json 201 {| created_orderId := newId; created_orderCode := orderCode;
                   created_status := "pending" |}, db2)
  end.

(** *** [POST /orders/:orderId/items] *)

Definition addItemToOrder (db : Db) (now : Timestamp) (orderId : string)
    (body : AddToOrderBody) : Reply (string * OrderItem) * Db :=
  validateRequest addToOrderSchema body db
  match Firestore.where_sku db (add_sku body) with
  | [] => (Failure 404 "Product not found", db)
  | (productDocId, product) :: _ =>
      match orders db !! orderId with
      | None => (Failure 404 "Order not found", db)
      | Some orderDoc =>
          let item :=
            {| productId := productDocId;
               sku := add_sku body;
               name := product_name product;
               price := product_price product;
               quantity := add_quantity body;
               color := match add_color body with
                        | Some c => if bool_decide (c = "") then None else Some c
                        | None => None
                        end;
               addedAt := ServerTimestamp |} in
          if Firestore.validateArrayElement item then
            (Json 201 ("Item added", item),
             Firestore.update db orderId
               {| clientId := clientId orderDoc; status := status orderDoc;
                  items := Firestore.arrayUnion (items orderDoc) [item];
                  wishlistItems := wishlistItems orderDoc;
                  orderCode := orderCode orderDoc;
                  createdAt := createdAt orderDoc; updatedAt := now;
                  closedAt := closedAt orderDoc |})
          else
            (Failure 500 "FieldValue.serverTimestamp() cannot be used inside of an array", db)
      end
  end.

(** *** [GET /orders/:orderId] and [GET /orders/code/:orderCode] *)

(** [{ id: doc.id, ...data, subtotal }]. *)
Record OrderView := {
  view_id : string;
  view_data : Order;
  view_subtotal : Q
}.

(** [items.reduce((sum, item) => sum + (item.price * item.quantity), 0)]. *)
Definition calculateSubtotal (l : list OrderItem) : Q :=
  fold_left (fun sum item => sum + price item * inject_Z (quantity item))%Q l 0%Q.



(** The same terms added from the right: an auxiliary of the proofs about
    exact arithmetic, equal to the subtotal up to [Qeq] only. *)
Fixpoint sum_price_quantity (l : list OrderItem) : Q :=
  match l with
  | [] => 0
  | item :: rest =>
      price item * inject_Z (quantity item) + sum_price_quantity rest
  end%Q.

Definition getOrder (db : Db) (orderId : string) : Reply OrderView :=
  match orders db !! orderId with
  | None => Failure 404 "Order not found"
  | Some data =>
      let subtotal := calculateSubtotal (items data) in
      Json 200 {| view_id := orderId; view_data := data; view_subtotal := subtotal |}
  end.

(** The handler behind [cashierAuthMiddleware]. *)
Definition getOrderByCode (db : Db) (code : string) : Reply OrderView :=
  match Firestore.where_orderCode db code with
  | [] => Failure 404 "Order not found"
  | (docId, data) :: _ =>
      let subtotal := calculateSubtotal (items data) in
      Json 200 {| view_id := docId; view_data := data; view_subtotal := subtotal |}
  end.

(** *** [PUT /orders/:orderId/items/:itemIndex] *)

(** An object in memory: [ref] is its identity, [val] its properties. *)
Record Obj := {
  ref : nat;
  val : OrderItem
}.

(** What [orderDoc.data()] builds: a fresh object per array element. *)
Record OrderData := {
  data_items : list Obj;
  data_wishlistItems : list Obj
}.

Definition data (orderDoc : Order) : OrderData :=
  {| data_items := imap (fun i v => {| ref := i; val := v |}) (items orderDoc);
     data_wishlistItems :=
       imap (fun i v => {| ref := length (items orderDoc) + i; val := v |})
         (wishlistItems orderDoc) |}.

(** [arr.includes(v)] on an array of objects read from the store: objects
    are compared by identity, and no element is [undefined]. *)
Definition includes (arr : list Obj) (v : option Obj) : bool :=
  match v with
  | Some o => existsb (fun x => (ref x =? ref o)%nat) arr
  | None => false
  end.

(** The effect of [item.quantity = q] on the properties of [item]. *)
Definition with_quantity (q : Z) (item : OrderItem) : OrderItem :=
  {| productId := productId item; sku := sku item; name := name item;
     price := price item; quantity := q; color := color item;
     addedAt := addedAt item |}.

(** The line item as the request leaves it: with the new quantity when one
    is given. *)
Definition requested (quantity : option Z) (item : OrderItem) : OrderItem :=
  match quantity with
  | Some q => with_quantity q item
  | None => item
  end.

Definition set_quantity (q : Z) (o : Obj) : Obj :=
  {| ref := ref o; val := with_quantity q (val o) |}.

(** [if (quantity !== undefined && quantity >= 0)
       orderData.items[index].quantity = quantity;]
    [None]: the assignment throws, [orderData.items[index]] being
    [undefined]. *)
Definition assign_quantity (orderData : OrderData) (index : JS.num)
    (quantity : option Z) : option OrderData :=
  match quantity with
  | Some q =>
      if 0 <=? q then
        match JS.get (data_items orderData) index, index with
        | Some o, JS.Int z =>
            Some {| data_items := <[Z.to_nat z := set_quantity q o]> (data_items orderData);
                    data_wishlistItems := data_wishlistItems orderData |}
        | _, _ => None
        end
      else Some orderData
  | None => Some orderData
  end.

(** [if (listType) { ... }]. [None]: [splice] removed nothing, so [item] is
    [undefined], it is pushed, and the [update] that follows throws on an
    [undefined] array element. *)
Definition move_item (orderData : OrderData) (index : JS.num)
    (listType : option ListType) : option OrderData :=
  match listType with
  | None => Some orderData
  | Some wishlist =>
      let '(removed, rest) := JS.splice (data_items orderData) index 1 in
      match removed with
      | item :: _ =>
          Some {| data_items := rest;
                  data_wishlistItems := data_wishlistItems orderData ++ [item] |}
      | [] => None
      end
  | Some buy =>
      if negb (includes (data_items orderData)
                 (JS.get (data_items orderData) index)) then
        let '(removed, rest) := JS.splice (data_wishlistItems orderData) index 1 in
        match removed with
        | item :: _ =>
            Some {| data_items := data_items orderData ++ [item];
                    data_wishlistItems := rest |}
        | [] => None
        end
      else Some orderData
  end.

Definition updateOrderItem (db : Db) (now : Timestamp)
    (orderId itemIndex : string) (body : UpdateOrderItemBody)
  : Reply string * Db :=
  validateRequest updateOrderItemSchema body db
  (let index := JS.parseInt itemIndex in
   match orders db !! orderId with
   | None => (Failure 404 "Order not found", db)
   | Some orderDoc =>
       let orderData := data orderDoc in
       if JS.lt index 0
          || JS.ge index (Z.of_nat (length (data_items orderData)))
       then (Failure 400 "Invalid item index", db)
       else
         match assign_quantity orderData index (upd_quantity body) with
         | None => (Failure 500 "Cannot set properties of undefined", db)
         | Some orderData =>
             match move_item orderData index (upd_listType body) with
             | None => (Failure 500 "Cannot use undefined as a Firestore value", db)
             | Some orderData =>
                 (Json 200 "Item updated",
                  Firestore.update db orderId
                    {| clientId := clientId orderDoc; status := status orderDoc;
                       items := val <$> data_items orderData;
                       wishlistItems := val <$> data_wishlistItems orderData;
                       orderCode := orderCode orderDoc;
                       createdAt := createdAt orderDoc; updatedAt := now;
                       closedAt := closedAt orderDoc |})
             end
         end
   end).

(** *** [DELETE /orders/:orderId/items/:itemIndex] *)

Definition removeOrderItem (db : Db) (now : Timestamp)
    (orderId itemIndex : string) : Reply string * Db :=
  let index := JS.parseInt itemIndex in
  match orders db !! orderId with
  | None => (Failure 404 "Order not found", db)
  | Some orderData =>
      if JS.lt index 0 || JS.ge index (Z.of_nat (length (items orderData)))
      then (Failure 400 "Invalid item index", db)
      else
        let items' := (JS.splice (items orderData) index 1).2 in
        (Json 200 "Item deleted",
         Firestore.update db orderId
           {| clientId := clientId orderData; status := status orderData;
              items := items';
              wishlistItems := wishlistItems orderData;
              orderCode := orderCode orderData;
              createdAt := createdAt orderData; updatedAt := now;
              closedAt := closedAt orderData |})
  end.

(** *** [POST /orders/:orderId/close] *)

(** The handler on a document of the collection: [orderId] is the id of
    the document that [doc(orderId)] refers to. What the route does with
    a path parameter that is no document id is in [close_order_route]. *)
Definition closeOrder (db : Db) (now : Timestamp) (orderId : string)
  : Reply string * Db :=
  match orders db !! orderId with
  | None => (Failure 404 "Order not found", db)
  | Some orderDoc =>
      (Json 200 "Order closed",
       Firestore.update db orderId
         {| clientId := clientId orderDoc; status := "closed";
            items := items orderDoc; wishlistItems := wishlistItems orderDoc;
            orderCode := orderCode orderDoc; createdAt := createdAt orderDoc;
            updatedAt := updatedAt orderDoc; closedAt := Some now |})
  end.

(** *** [PUT /orders/:orderId/status] *)

Definition validStatuses : list string :=
  ["pending"; "confirmed"; "processing"; "ready"; "completed"; "cancelled"].

(** The handler behind [cashierAuthMiddleware]. [status] is [req.body.status]
    when that is a string; [None] stands for a missing or non-string value,
    which [validStatuses.includes] never finds. *)
Definition setOrderStatus (db : Db) (now : Timestamp) (orderId : string)
    (status : option string) : Reply (string * string) * Db :=
  match status with
  | Some newStatus =>
      if bool_decide (newStatus ∈ validStatuses) then
        match orders db !! orderId with
        | None => (Failure 404 "Order not found", db)
        | Some orderDoc =>
            (Json 200 ("Status updated", newStatus),
             Firestore.update db orderId
               {| clientId := clientId orderDoc; status := newStatus;
                  items := items orderDoc;
                  wishlistItems := wishlistItems orderDoc;
                  orderCode := orderCode orderDoc;
                  createdAt := createdAt orderDoc; updatedAt := now;
                  closedAt := closedAt orderDoc |})
        end
      else (Failure 400 "Invalid status", db)
  | None => (Failure 400 "Invalid status", db)
  end.

(** ** Sample data *)

Definition mate : OrderItem :=
  {| productId := "prod1"; sku := "SKU001"; name := "Mate"; price := 100;
     quantity := 2; color := None; addedAt := At 1700000100 |}.

Definition termo : OrderItem :=
  {| productId := "prod2"; sku := "SKU002"; name := "Termo"; price := 50;
     quantity := 3; color := Some "rojo"; addedAt := At 1700000200 |}.

Definition bombilla : OrderItem :=
  {| productId := "prod3"; sku := "SKU003"; name := "Bombilla"; price := 25;
     quantity := 1; color := None; addedAt := At 1700000300 |}.

Definition sample_order : Order :=
  {| clientId := "anonymous"; status := "pending"; items := [mate; termo];
     wishlistItems := [bombilla]; orderCode := Some "AB12CD34";
     createdAt := 1700000000; updatedAt := 1700000300; closedAt := None |}.

(** An order whose wishlist is longer than its buy list. *)
Definition wish_order : Order :=
  {| clientId := "c-17"; status := "confirmed"; items := [];
     wishlistItems := [bombilla]; orderCode := Some "ZZ99YY88";
     createdAt := 1700000000; updatedAt := 1700000300; closedAt := None |}.

Definition sample_db : Db :=
  {| orders := {[ "order1" := sample_order; "order2" := wish_order ]};
     products :=
       [("prod1", {| product_sku := "SKU001"; product_name := "Mate";
                     product_price := 100; product_description := "";
                     product_image := ""; product_colors := [] |})] |}.

Definition caro : OrderItem :=
  {| productId := "prod4"; sku := "SKU004"; name := "Parrilla";
     price := 999999 # 100; quantity := 1; color := None;
     addedAt := At 1700000400 |}.

Definition sample_now : Timestamp := 1700000999.

(** Eight draws of [Math.random()], then zeros. *)
Definition sample_random (i : nat) : Q :=
  nth i [0; 1 # 2; 35 # 36; 1 # 36; 99 # 100; 26 # 36; 1 # 3; 5 # 7]%Q 0%Q.

(** * The other routes and middlewares *)

(** ** The identity provider and the [users] collection *)

(** What awaiting a call of the Admin SDK gives: the resolved value, or
    the message of the error it throws. *)
Inductive Outcome (A : Type) :=
| Resolved (value : A)
| Rejected (message : string).

Arguments Resolved {A} value.
Arguments Rejected {A} message.

(** [s.substring(start)]. *)
Definition substring_from (start : nat) (s : string) : string :=
  String.substring start (String.length s - start) s.

(** ** Document references *)

Module DocumentPath.

(** What [collection('orders').doc(path)] refers to: the document of the
    collection with that id, or a document of a subcollection, which is
    never one of the orders. *)
Inductive reference :=
| Document (id : string)
| Nested.

(** [path.split('/')]; [segment] holds the characters read since the last
    slash. *)
Fixpoint split (path segment : string) : list string :=
  match path with
  | EmptyString => [segment]
  | String c rest =>
      if Ascii.eqb c "/" then segment :: split rest EmptyString
      else split rest (segment +:+ String c EmptyString)
  end.

(** The components of a relative path: a slash at either end is allowed
    and gives no component. *)
Definition segments (path : string) : list string :=
  filter (fun segment => segment ≠ "") (split path "").

Definition contains (pattern s : string) : bool :=
  match String.index 0 pattern s with
  | Some _ => true
  | None => false
  end.

(** The ids the server refuses: [.], [..], the reserved [__.*__], and ids
    longer than 1500 bytes. *)
Definition refused (id : string) : bool :=
  bool_decide (id = ".") || bool_decide (id = "..")
  || ((4 <=? String.length id)%nat && String.prefix "__" id
      && bool_decide (substring_from (String.length id - 2) id = "__"))
  || (1500 <? String.length id)%nat.

(** [doc(path)] followed by [get()]: [Rejected] when the client refuses the
    path (empty, with [//], or with an even number of components, which
    names a collection) or the server refuses an id in it. *)
Definition resolve (path : string) : Outcome reference :=
  if bool_decide (path = "") then Rejected "Path must be a non-empty string"
  else if contains "//" path then Rejected "Paths must not contain //"
  else
    let components := segments path in
    if Nat.even (length components)
    then Rejected "Your path does not contain an even number of components"
    else if existsb refused components
    then Rejected "Resource id is invalid"
    else match components with
         | [id] => Resolved (Document id)
         | _ => Resolved Nested
         end.

End DocumentPath.

(** *** The routes on a path parameter *)

(** [POST /orders/:orderId/close] for any value of the path parameter: the
    handler of [closeOrder] runs on the document that [doc(orderId)]
    refers to; when [doc(orderId)] or the read throws, the [catch] block
    answers 500. *)
Definition close_order_route (db : Db) (now : Timestamp) (orderId : string)
  : Reply string * Db :=
  match DocumentPath.resolve orderId with
  | Rejected message => (Failure 500 message, db)
  | Resolved (DocumentPath.Document id) => closeOrder db now id
  | Resolved DocumentPath.Nested => (Failure 404 "Order not found", db)
  end.

(** [POST /orders/:orderId/items] for any value of the path parameter: the
    body is validated and the product looked up before [doc(orderId)] is
    reached. *)
Definition add_item_route (db : Db) (now : Timestamp) (orderId : string)
    (body : AddToOrderBody) : Reply (string * OrderItem) * Db :=
  validateRequest addToOrderSchema body db
  match Firestore.where_sku db (add_sku body) with
  | [] => (Failure 404 "Product not found", db)
  | _ :: _ =>
      match DocumentPath.resolve orderId with
      | Rejected message => (Failure 500 message, db)
      | Resolved (DocumentPath.Document id) => addItemToOrder db now id body
      | Resolved DocumentPath.Nested => (Failure 404 "Order not found", db)
      end
  end.

(** The claims of a verified ID token the middlewares read. *)
Record DecodedToken := {
  uid : string;
  token_email : option string
}.

(** [admin.auth()] and [db.collection('users')]. A user document is
    modelled by its [role] field, [None] when the document has none;
    [getUserByEmail] resolves to the uid of the user record. *)
Record Identity := {
  verifyIdToken : string -> Outcome DecodedToken;
  getUserByEmail : string -> Outcome string;
  createCustomToken : string -> Outcome string;
  users : gmap string (option string)
}.

(** [userData?.role], with [None] for [undefined]. *)
Definition role_of (idp : Identity) (userId : string) : option string :=
  match users idp !! userId with
  | Some userData => userData
  | None => None
  end.

(** [value || fallback] on a string that may be [undefined]. *)
Definition or_else (value : option string) (fallback : string) : string :=
  match value with
  | Some s => if bool_decide (s = "") then fallback else s
  | None => fallback
  end.

(** [role !== 'cashier' && role !== 'admin']. *)
Definition not_cashier_nor_admin (role : option string) : bool :=
  negb (bool_decide (role = Some "cashier"))
  && negb (bool_decide (role = Some "admin")).

(** [req.user]. *)
Record AuthUser := {
  user_uid : string;
  user_email : string;
  user_role : string
}.

(** What a middleware does with a request: hand it to the next handler
    with [req.user] set, or answer it. *)
Inductive Guard :=
| Next (user : AuthUser)
| Reject (code : Z) (error : string).

Definition authMiddleware (idp : Identity) (authorization : option string)
  : Guard :=
  match authorization with
  | None => Reject 401 "No token provided"
  | Some authHeader =>
      if bool_decide (authHeader = "")
         || negb (String.prefix "Bearer " authHeader)
      then Reject 401 "No token provided"
      else
        let token := substring_from 7 authHeader in
        match verifyIdToken idp token with
        | Rejected _ => Reject 401 "Invalid token"
        | Resolved decodedToken =>
            let role := role_of idp (uid decodedToken) in
            Next {| user_uid := uid decodedToken;
                    user_email := or_else (token_email decodedToken) "";
                    user_role := or_else role "customer" |}
        end
  end.

Definition cashierAuthMiddleware (idp : Identity)
    (authorization : option string) : Guard :=
  match authorization with
  | None => Reject 401 "No token provided"
  | Some authHeader =>
      if bool_decide (authHeader = "")
         || negb (String.prefix "Bearer " authHeader)
      then Reject 401 "No token provided"
      else
        let token := substring_from 7 authHeader in
        match verifyIdToken idp token with
        | Rejected _ => Reject 401 "Invalid token"
        | Resolved decodedToken =>
            let role := role_of idp (uid decodedToken) in
            if not_cashier_nor_admin role
            then Reject 403 "Forbidden: Cashier access required"
            else
              Next {| user_uid := uid decodedToken;
                      user_email := or_else (token_email decodedToken) "";
                      user_role := or_else role "customer" |}
        end
  end.

(** *** The two routes behind [cashierAuthMiddleware] *)

(** [apiRouter.get('/orders/code/:orderCode', cashierAuthMiddleware, ...)]. *)
Definition get_order_by_code_route (idp : Identity) (db : Db)
    (authorization : option string) (code : string) : Reply OrderView :=
  match cashierAuthMiddleware idp authorization with
  | Next _ => getOrderByCode db code
  | Reject statusCode error => Failure statusCode error
  end.

(** [apiRouter.put('/orders/:orderId/status', cashierAuthMiddleware, ...)]. *)
Definition put_order_status_route (idp : Identity) (db : Db) (now : Timestamp)
    (authorization : option string) (orderId : string) (status : option string)
  : Reply (string * string) * Db :=
  match cashierAuthMiddleware idp authorization with
  | Next _ => setOrderStatus db now orderId status
  | Reject statusCode error => (Failure statusCode error, db)
  end.

(** *** [POST /auth/login] *)

Record LoginBody := {
  login_email : string;
  login_password : string
}.

(** [email: z.string().email()], [password: z.string().min(1)];
    [isEmail] is zod's test of the e-mail format. *)
Definition cashierLoginSchema (isEmail : string -> bool) (body : LoginBody)
  : bool :=
  isEmail (login_email body)
  && (1 <=? Z.of_nat (String.length (login_password body))).

(** The reply is [{ token }]; whatever the SDK throws is answered 400 with
    its message. *)
Definition login (isEmail : string -> bool) (idp : Identity) (body : LoginBody)
  : Reply string :=
  if cashierLoginSchema isEmail body then
    match getUserByEmail idp (login_email body) with
    | Rejected message => Failure 400 message
    | Resolved userId =>
        match createCustomToken idp userId with
        | Rejected message => Failure 400 message
        | Resolved customToken =>
            if not_cashier_nor_admin (role_of idp userId)
            then Failure 403 "Access denied"
            else Json 200 customToken
        end
    end
  else Failure 400 "Validation error".

(** ** The product routes *)

(** [GET /products/search]: [sku] is [req.query.sku] when that is a
    string, [None] when it is missing or is not one. *)
Definition searchProduct (db : Db) (sku : option string)
  : Reply (string * Product) :=
  match sku with
  | None => Failure 400 "SKU parameter required"
  | Some s =>
      if bool_decide (s = "") then Failure 400 "SKU parameter required"
      else
        match Firestore.where_sku db s with
        | [] => Failure 404 "Product not found"
        | doc :: _ => Json 200 doc
        end
  end.

(** [collection('products').doc(id).get()]. *)
Definition product_doc (db : Db) (id : string) : option Product :=
  snd <$> head (filter (fun doc => doc.1 = id) (products db)).

(** [GET /products/:id]. *)
Definition getProduct (db : Db) (id : string) : Reply (string * Product) :=
  match product_doc db id with
  | None => Failure 404 "Product not found"
  | Some data => Json 200 (id, data)
  end.

(** [GET /admin/products]: [limit(100)]. *)
Definition listProducts (db : Db) : Reply (list (string * Product)) :=
  Json 200 (take 100 (products db)).

(** *** [POST /admin/products] *)

Record CreateProductBody := {
  new_sku : string;
  new_name : string;
  new_price : Q;
  new_description : option string;
  new_image : option string;
  new_colors : option (list string)
}.

(** [sku: z.string().min(1).max(50)], [name: z.string().min(1).max(200)],
    [price: z.number().positive()]. *)
Definition createProductSchema (body : CreateProductBody) : bool :=
  (1 <=? Z.of_nat (String.length (new_sku body)))
  && (Z.of_nat (String.length (new_sku body)) <=? 50)
  && (1 <=? Z.of_nat (String.length (new_name body)))
  && (Z.of_nat (String.length (new_name body)) <=? 200)
  && negb (Qle_bool (new_price body) 0).

(** The products collection with the two timestamps each product document
    holds beside the fields of [Product]: [createdAt] and [updatedAt]. *)
Record Catalog := {
  catalog_db : Db;
  catalog_times : gmap string (Timestamp * Timestamp)
}.

(** The place of a new document among the others, which are kept in the
    order of their ids. *)
Fixpoint insert_by_id (doc : string * Product) (l : list (string * Product))
  : list (string * Product) :=
  match l with
  | [] => [doc]
  | d :: rest =>
      if String.leb doc.1 d.1 then doc :: l else d :: insert_by_id doc rest
  end.

(** [{ id, sku, name, price }]. *)
Record CreatedProduct := {
  created_id : string;
  created_sku : string;
  created_name : string;
  created_price : Q
}.

(** [newId] is the document id that [collection('products').add]
    allocates. *)
Definition createProduct (c : Catalog) (now : Timestamp) (newId : string)
    (body : CreateProductBody) : Reply CreatedProduct * Catalog :=
  if createProductSchema body then
    match Firestore.where_sku (catalog_db c) (new_sku body) with
    | _ :: _ => (Failure 400 "SKU already exists", c)
    | [] =>
        match product_doc (catalog_db c) newId with
        | Some _ => (Failure 500 "Document already exists", c)
        | None =>
            let data :=
              {| product_sku := new_sku body;
                 product_name := new_name body;
                 product_price := new_price body;
                 product_description := or_else (new_description body) "";
                 product_image := or_else (new_image body) "";
                 product_colors := default [] (new_colors body) |} in
            (Json 201 {| created_id := newId; created_sku := new_sku body;
                         created_name := new_name body;
                         created_price := new_price body |},
             {| catalog_db :=
                  {| orders := orders (catalog_db c);
                     products :=
                       insert_by_id (newId, data) (products (catalog_db c)) |};
                catalog_times := <[newId := (now, now)]> (catalog_times c) |})
        end
    end
  else (Failure 400 "Validation error", c).

(** No two product documents carry the same SKU. *)
Definition unique_skus (db : Db) : Prop :=
  NoDup (map (fun doc => product_sku doc.2) (products db)).

(** ** Draws that produce a given code *)

(** The position of a character in [chars]. *)
Definition position_of (c : ascii) : Z :=
  match String.index 0 (String c EmptyString) chars with
  | Some n => Z.of_nat n
  | None => 0
  end.

(** A sequence of draws whose [i]-th value selects the [i]-th character of
    [code]. *)
Definition draws_for (code : string) (i : nat) : Q :=
  match String.get i code with
  | Some c => Qmake (position_of c) 36
  | None => 0
  end.

(** ** The order routes as one service *)

(** A request to one of the six routes that write orders. *)
Inductive Request :=
| PostOrder (newId : string) (random : nat -> Q) (client : option string)
    (listType : option ListType)
| PostItem (orderId : string) (body : AddToOrderBody)
| PutItem (orderId itemIndex : string) (body : UpdateOrderItemBody)
| DeleteItem (orderId itemIndex : string)
| PostClose (orderId : string)
| PutStatus (orderId : string) (status : option string).

(** The store after one request committed at time [now]. *)
Definition handle (db : Db) (now : Timestamp) (request : Request) : Db :=
  match request with
  | PostOrder newId random client listType =>
      (createOrder db now newId random client listType).2
  | PostItem orderId body => (addItemToOrder db now orderId body).2
  | PutItem orderId itemIndex body =>
      (updateOrderItem db now orderId itemIndex body).2
  | DeleteItem orderId itemIndex => (removeOrderItem db now orderId itemIndex).2
  | PostClose orderId => (closeOrder db now orderId).2
  | PutStatus orderId status => (setOrderStatus db now orderId status).2
  end.

(** The store after a sequence of requests, served one after the other. *)
Definition serve (db : Db) (requests : list (Timestamp * Request)) : Db :=
  fold_left (fun store request => handle store request.1 request.2) requests db.

(** The number of line items of an order, in both lists. *)
Definition line_items (o : Order) : nat :=
  length (items o) + length (wishlistItems o).

(** What a request may have made of a stored order. *)
Definition evolves (o o' : Order) : Prop :=
  orderCode o' = orderCode o
  ∧ clientId o' = clientId o
  ∧ createdAt o' = createdAt o
  ∧ (line_items o' <= line_items o)%nat
  ∧ (status o' = status o ∨ status o' = "closed" ∨ status o' ∈ validStatuses).

(** The seven values of the [status] field. *)
Definition known_status (s : string) : Prop :=
  s = "closed" ∨ s ∈ validStatuses.

(** ** Sample identity provider *)

Definition sample_idp : Identity :=
  {| verifyIdToken token :=
       if bool_decide (token = "tok-ana")
       then Resolved {| uid := "u-ana"; token_email := Some "ana@tienda.uy" |}
       else if bool_decide (token = "tok-beto")
       then Resolved {| uid := "u-beto"; token_email := None |}
       else Rejected "Decoding Firebase ID token failed";
     getUserByEmail email :=
       if bool_decide (email = "ana@tienda.uy") then Resolved "u-ana"
       else if bool_decide (email = "beto@tienda.uy") then Resolved "u-beto"
       else Rejected "There is no user record corresponding to the provided identifier";
     createCustomToken userId := Resolved ("custom-" +:+ userId);
     users := {[ "u-ana" := Some "cashier" ]} |}.

Definition sample_isEmail (s : string) : bool :=
  match String.index 0 "@" s with
  | Some _ => true
  | None => false
  end.

Definition sample_catalog : Catalog :=
  {| catalog_db := sample_db;
     catalog_times := {[ "prod1" := (1690000000, 1690000000) ]} |}.

Definition yerba_body : CreateProductBody :=
  {| new_sku := "SKU777"; new_name := "Yerba"; new_price := 189 # 2;
     new_description := None; new_image := Some "";
     new_colors := None |}.

(** * Properties *)

(** ** The JavaScript primitives on concrete inputs *)

Example parseInt_digits : JS.parseInt "12" = JS.Int 12.
Proof. reflexivity. Qed.

Example parseInt_negative : JS.parseInt "-1" = JS.Int (-1).
Proof. reflexivity. Qed.

Example parseInt_prefix : JS.parseInt " 7up" = JS.Int 7.
Proof. reflexivity. Qed.

Example parseInt_hex : JS.parseInt "0x1f" = JS.Int 31.
Proof. reflexivity. Qed.

Example parseInt_letters : JS.parseInt "abc" = JS.NaN.
Proof. reflexivity. Qed.

Example splice_middle : JS.splice [1; 2; 3] (JS.Int 1) 1 = ([2], [1; 3]).
Proof. reflexivity. Qed.

Example splice_NaN : JS.splice [1; 2; 3] JS.NaN 1 = ([1], [2; 3]).
Proof. reflexivity. Qed.

Example splice_negative : JS.splice [1; 2; 3] (JS.Int (-1)) 1 = ([3], [1; 2]).
Proof. reflexivity. Qed.

Example splice_empty : JS.splice (@nil Z) JS.NaN 1 = ([], []).
Proof. reflexivity. Qed.

Example arrayUnion_skips_present :
  Firestore.arrayUnion [mate; termo] [mate] = [mate; termo].
Proof. reflexivity. Qed.

Example arrayUnion_appends_new :
  Firestore.arrayUnion [mate] [termo] = [mate; termo].
Proof. reflexivity. Qed.

(** ** Array access and [splice] *)

Section Arrays.
Context {A : Type}.
Implicit Types (arr : list A) (z : Z).

Lemma get_in_range arr z :
  0 ≤ z → JS.get arr (JS.Int z) = arr !! Z.to_nat z.
Proof.
  intros Hz. unfold JS.get.
  destruct (Z.ltb_spec z 0); [lia | done].
Qed.

Lemma in_range_lookup arr z :
  0 ≤ z < Z.of_nat (length arr) → is_Some (arr !! Z.to_nat z).
Proof. intros Hz. apply lookup_lt_is_Some. lia. Qed.

(** Inside the array, [splice(index, 1)] takes out exactly the element at
    [index]. *)
Lemma splice_in_range arr z x :
  0 ≤ z → arr !! Z.to_nat z = Some x →
  JS.splice arr (JS.Int z) 1 = ([x], delete (Z.to_nat z) arr).
Proof.
  intros Hz Hx.
  assert (Hlt : (Z.to_nat z < length arr)%nat) by (by eapply lookup_lt_Some).
  unfold JS.splice, JS.splice_start.
  destruct (Z.ltb_spec z 0); [lia |].
  replace (Z.min z (Z.of_nat (length arr))) with z by lia.
  replace (Z.to_nat (Z.min (Z.max 1 0) (Z.of_nat (length arr) - z)))
    with 1%nat by lia.
  rewrite (drop_S _ _ _ Hx), delete_take_drop.
  by replace (Z.to_nat z + 1)%nat with (S (Z.to_nat z)) by lia.
Qed.

(** With [NaN] as start, [splice] takes out the first element. *)
Lemma splice_NaN_cons x arr :
  JS.splice (x :: arr) JS.NaN 1 = ([x], arr).
Proof.
  unfold JS.splice, JS.splice_start.
  replace (Z.to_nat (Z.min (Z.max 1 0) (Z.of_nat (length (x :: arr)) - 0)))
    with 1%nat by (simpl length; lia).
  simpl. by rewrite drop_0.
Qed.

End Arrays.

(** ** Objects in memory *)

Lemma val_imap (f : nat → nat) (l : list OrderItem) :
  val <$> imap (fun i v => {| ref := f i; val := v |}) l = l.
Proof.
  revert f. induction l as [| x l IH]; intros f; [done |].
  rewrite imap_cons. simpl. f_equal. apply (IH (f ∘ S)).
Qed.

Lemma data_items_val o : val <$> data_items (data o) = items o.
Proof. apply (val_imap (fun i => i)). Qed.

Lemma data_wishlistItems_val o :
  val <$> data_wishlistItems (data o) = wishlistItems o.
Proof. apply (val_imap (fun i => (length (items o) + i)%nat)). Qed.

Lemma data_items_length o : length (data_items (data o)) = length (items o).
Proof. unfold data. simpl. apply length_imap. Qed.

(** An element read from an array is found in it by [includes]. *)
Lemma includes_lookup (arr : list Obj) (i : nat) (o : Obj) :
  arr !! i = Some o → includes arr (Some o) = true.
Proof.
  intros Hi. simpl. apply existsb_exists. exists o. split.
  - apply list_elem_of_In. by eapply list_elem_of_lookup_2.
  - apply Nat.eqb_refl.
Qed.

(** ** Removing an item *)

(** C6. For an existing order and an integer index [i]: when
    [0 <= i < length items], [removeOrderItem] deletes exactly the item at
    position [i] (the items before it keep their place, the items after it
    move left by one) and leaves [wishlistItems] and the other order fields
    but [updatedAt] as they were; when [i < 0] or [i >= length items] it
    fails with Invalid Index and the store is unchanged. *)
Theorem removeOrderItem_deletes_at_index
    db now orderId itemIndex (i : Z) (o : Order) :
  orders db !! orderId = Some o →
  JS.parseInt itemIndex = JS.Int i →
  (0 ≤ i < Z.of_nat (length (items o)) →
   ∃ o',
     removeOrderItem db now orderId itemIndex
       = (Json 200 "Item deleted", Firestore.update db orderId o')
     ∧ items o' = delete (Z.to_nat i) (items o)
     ∧ (∀ j, (j < Z.to_nat i)%nat → items o' !! j = items o !! j)
     ∧ (∀ j, (Z.to_nat i ≤ j)%nat → items o' !! j = items o !! S j)
     ∧ S (length (items o')) = length (items o)
     ∧ wishlistItems o' = wishlistItems o
     ∧ clientId o' = clientId o ∧ status o' = status o
     ∧ orderCode o' = orderCode o ∧ createdAt o' = createdAt o
     ∧ closedAt o' = closedAt o)
  ∧ (i < 0 ∨ Z.of_nat (length (items o)) ≤ i →
     removeOrderItem db now orderId itemIndex
       = (Failure 400 "Invalid item index", db)).
Proof.
  intros Ho Hi. unfold removeOrderItem. rewrite Ho, Hi.
  unfold JS.lt, JS.ge. split.
  - intros Hrange.
    destruct (Z.ltb_spec i 0); [lia |].
    destruct (Z.leb_spec (Z.of_nat (length (items o))) i); [lia |].
    cbv [orb].
    destruct (in_range_lookup (items o) i Hrange) as [x Hx].
    rewrite (splice_in_range _ _ _ (proj1 Hrange) Hx).
    eexists. split; [reflexivity |]. simpl.
    repeat split.
    + intros j Hj. by apply list_lookup_delete_lt.
    + intros j Hj. by apply list_lookup_delete_ge.
    + rewrite length_delete by eauto.
      apply lookup_lt_Some in Hx. lia.
  - intros [Hneg | Hbig].
    + destruct (Z.ltb_spec i 0); [done | lia].
    + destruct (Z.leb_spec (Z.of_nat (length (items o))) i); [| lia].
      by rewrite orb_true_r.
Qed.

Lemma removeOrderItem_deletes_at_index_witness :
  (∃ o',
     removeOrderItem sample_db sample_now "order1" "0"
       = (Json 200 "Item deleted", Firestore.update sample_db "order1" o')
     ∧ items o' = [termo] ∧ wishlistItems o' = [bombilla])
  ∧ removeOrderItem sample_db sample_now "order1" "2"
      = (Failure 400 "Invalid item index", sample_db).
Proof.
  split.
  - destruct (removeOrderItem_deletes_at_index
                sample_db sample_now "order1" "0" 0 sample_order)
      as [Hin _]; [reflexivity | reflexivity |].
    destruct Hin as (o' & Hrun & Hitems & _ & _ & _ & Hwish & _);
      [simpl; lia |].
    exists o'. by repeat split.
  - apply (removeOrderItem_deletes_at_index
             sample_db sample_now "order1" "2" 2 sample_order);
      [reflexivity | reflexivity | simpl; lia].
Defined.

(** C10. When [parseInt] of the [itemIndex] path parameter is [NaN]
    (as for ["abc"]), [removeOrderItem] on an existing order with non-empty
    [items] does not fail with Invalid Index: it answers 200 and removes the
    item at position 0; [updateOrderItem] with the same parameter never
    answers Invalid Index either, whatever the body. *)
Theorem NaN_index_passes_the_bounds_check
    db now orderId itemIndex (o : Order) (first : OrderItem) rest :
  orders db !! orderId = Some o →
  items o = first :: rest →
  JS.parseInt itemIndex = JS.NaN →
  JS.lt (JS.parseInt itemIndex) 0 = false
  ∧ JS.ge (JS.parseInt itemIndex) (Z.of_nat (length (items o))) = false
  ∧ (∃ o',
       removeOrderItem db now orderId itemIndex
         = (Json 200 "Item deleted", Firestore.update db orderId o')
       ∧ items o' = rest ∧ wishlistItems o' = wishlistItems o)
  ∧ ∀ body,
      (updateOrderItem db now orderId itemIndex body).1
        ≠ Failure 400 "Invalid item index".
Proof.
  intros Ho Hitems Hnan.
  split; [by rewrite Hnan |]. split; [by rewrite Hnan |]. split.
  - unfold removeOrderItem. rewrite Ho, Hnan, Hitems.
    cbv [JS.lt JS.ge orb]. rewrite splice_NaN_cons.
    eexists. split; [reflexivity |]. by simpl.
  - intros body. unfold updateOrderItem, validateRequest.
    destruct (updateOrderItemSchema body); [| by simpl].
    rewrite Ho, Hnan. cbv [JS.lt JS.ge orb].
    destruct (assign_quantity _ _ _); [| by simpl].
    destruct (move_item _ _ _); by simpl.
Qed.

Lemma NaN_index_passes_the_bounds_check_witness :
  JS.parseInt "abc" = JS.NaN
  ∧ (∃ o',
       removeOrderItem sample_db sample_now "order1" "abc"
         = (Json 200 "Item deleted", Firestore.update sample_db "order1" o')
       ∧ items o' = [termo] ∧ wishlistItems o' = [bombilla])
  ∧ (updateOrderItem sample_db sample_now "order1" "abc"
       {| upd_quantity := None; upd_listType := None |}).1
      ≠ Failure 400 "Invalid item index".
Proof.
  split; [reflexivity |].
  destruct (NaN_index_passes_the_bounds_check
              sample_db sample_now "order1" "abc" sample_order mate [termo])
    as (_ & _ & Hremove & Hupdate); [reflexivity | reflexivity | reflexivity |].
  split; [exact Hremove | apply Hupdate].
Defined.

(** ** Updating an item inside the range of [items] *)

Lemma delete_insert_same {A} (l : list A) (i : nat) (x : A) :
  delete i (<[i := x]> l) = delete i l.
Proof.
  rewrite !delete_take_drop.
  rewrite take_insert_ge by lia. by rewrite drop_insert_lt by lia.
Qed.

Lemma assign_quantity_in_range orderData (i : Z) (quantity : option Z) obj :
  0 ≤ i →
  data_items orderData !! Z.to_nat i = Some obj →
  (∀ q, quantity = Some q → 0 ≤ q) →
  assign_quantity orderData (JS.Int i) quantity
    = Some {| data_items :=
                <[Z.to_nat i := {| ref := ref obj;
                                   val := requested quantity (val obj) |}]>
                  (data_items orderData);
              data_wishlistItems := data_wishlistItems orderData |}.
Proof.
  intros Hi Hobj Hq. unfold assign_quantity.
  destruct quantity as [q |].
  - destruct (Z.leb_spec 0 q); [| specialize (Hq q eq_refl); lia].
    by rewrite get_in_range, Hobj.
  - simpl. destruct obj, orderData. simpl in *. by rewrite list_insert_id.
Qed.

(** Inside the range of [items] the move to [wishlist] takes the item out
    of [items] and appends it to [wishlistItems]; the guard of the move to
    [buy] is false, since [items[index]] is an element of [items]. *)
Lemma move_item_in_range orderData (i : Z) (listType : option ListType) obj :
  0 ≤ i →
  data_items orderData !! Z.to_nat i = Some obj →
  move_item orderData (JS.Int i) listType
    = Some match listType with
           | Some wishlist =>
               {| data_items := delete (Z.to_nat i) (data_items orderData);
                  data_wishlistItems := data_wishlistItems orderData ++ [obj] |}
           | _ => orderData
           end.
Proof.
  intros Hi Hobj. unfold move_item.
  destruct listType as [[|] |]; [| | done].
  - rewrite get_in_range, Hobj by done.
    by rewrite (includes_lookup _ _ _ Hobj).
  - by rewrite (splice_in_range _ _ _ Hi Hobj).
Qed.

(** What a valid request does to an order when [index] is inside [items]. *)
Lemma updateOrderItem_in_range
    db now orderId itemIndex (i : Z) (o : Order) (item : OrderItem) body :
  orders db !! orderId = Some o →
  JS.parseInt itemIndex = JS.Int i →
  0 ≤ i →
  items o !! Z.to_nat i = Some item →
  updateOrderItemSchema body = true →
  updateOrderItem db now orderId itemIndex body
    = (Json 200 "Item updated",
       Firestore.update db orderId
         {| clientId := clientId o; status := status o;
            items :=
              match upd_listType body with
              | Some wishlist => delete (Z.to_nat i) (items o)
              | _ => <[Z.to_nat i := requested (upd_quantity body) item]> (items o)
              end;
            wishlistItems :=
              match upd_listType body with
              | Some wishlist =>
                  wishlistItems o ++ [requested (upd_quantity body) item]
              | _ => wishlistItems o
              end;
            orderCode := orderCode o; createdAt := createdAt o;
            updatedAt := now; closedAt := closedAt o |}).
Proof.
  intros Ho Hparse Hi Hitem Hschema.
  assert (Hlen : (Z.to_nat i < length (items o))%nat)
    by (by eapply lookup_lt_Some).
  unfold updateOrderItem, validateRequest. rewrite Hschema, Ho, Hparse.
  rewrite data_items_length. unfold JS.lt, JS.ge.
  destruct (Z.ltb_spec i 0); [lia |].
  destruct (Z.leb_spec (Z.of_nat (length (items o))) i); [lia |].
  cbv [orb].
  assert (Hobj : data_items (data o) !! Z.to_nat i
                 = Some {| ref := Z.to_nat i; val := item |}).
  { unfold data. simpl. by rewrite list_lookup_imap, Hitem. }
  erewrite assign_quantity_in_range; [| done | exact Hobj |].
  2:{ intros q Hq. unfold updateOrderItemSchema in Hschema.
      rewrite Hq in Hschema. lia. }
  erewrite move_item_in_range; [| done |].
  2:{ cbn [data_items]. apply list_lookup_insert_eq.
      by rewrite data_items_length. }
  do 2 f_equal.
  destruct (upd_listType body) as [[|] |]; cbn [data_items data_wishlistItems];
    rewrite ?list_fmap_delete, ?list_fmap_insert, ?fmap_app,
      ?delete_insert_same, ?data_items_val, ?data_wishlistItems_val; done.
Qed.

(** C7. For an existing order and an index inside [items], a request with
    quantity 0 passes validation and is answered 200; the zero is written as
    it is: the addressed item keeps all its other fields, gets quantity 0
    and is still a line item of the order. Unless the same request moves it
    to the wishlist it stays at its index in [items], whose other entries
    and length are unchanged; with the move it becomes the last entry of
    [wishlistItems]. *)
Theorem updateOrderItem_writes_zero_quantity
    db now orderId itemIndex (i : Z) (o : Order) (item : OrderItem) listType :
  orders db !! orderId = Some o →
  JS.parseInt itemIndex = JS.Int i →
  0 ≤ i →
  items o !! Z.to_nat i = Some item →
  ∃ o' item',
    updateOrderItem db now orderId itemIndex
        {| upd_quantity := Some 0; upd_listType := listType |}
      = (Json 200 "Item updated", Firestore.update db orderId o')
    ∧ quantity item' = 0
    ∧ productId item' = productId item ∧ sku item' = sku item
    ∧ name item' = name item ∧ price item' = price item
    ∧ color item' = color item ∧ addedAt item' = addedAt item
    ∧ (length (items o') + length (wishlistItems o')
       = length (items o) + length (wishlistItems o))%nat
    ∧ (listType ≠ Some wishlist →
       items o' !! Z.to_nat i = Some item'
       ∧ length (items o') = length (items o)
       ∧ (∀ j, j ≠ Z.to_nat i → items o' !! j = items o !! j)
       ∧ wishlistItems o' = wishlistItems o)
    ∧ (listType = Some wishlist →
       items o' = delete (Z.to_nat i) (items o)
       ∧ wishlistItems o' = wishlistItems o ++ [item']).
Proof.
  intros Ho Hparse Hi Hitem.
  assert (Hlen : (Z.to_nat i < length (items o))%nat)
    by (by eapply lookup_lt_Some).
  eexists _, (with_quantity 0 item).
  split; [by eapply updateOrderItem_in_range |].
  cbn [upd_listType upd_quantity requested items wishlistItems].
  do 7 (split; [done |]).
  destruct listType as [[|] |]; (split; [| split]); try done.
  - by rewrite length_insert.
  - intros _. repeat split.
    + by apply list_lookup_insert_eq.
    + by apply length_insert.
    + intros j Hj. by apply list_lookup_insert_ne.
  - rewrite length_app, length_delete by eauto. simpl. lia.
  - by rewrite length_insert.
  - intros _. repeat split.
    + by apply list_lookup_insert_eq.
    + by apply length_insert.
    + intros j Hj. by apply list_lookup_insert_ne.
Qed.

Lemma updateOrderItem_writes_zero_quantity_witness :
  ∃ o' item',
    updateOrderItem sample_db sample_now "order1" "1"
        {| upd_quantity := Some 0; upd_listType := None |}
      = (Json 200 "Item updated", Firestore.update sample_db "order1" o')
    ∧ quantity item' = 0 ∧ sku item' = "SKU002"
    ∧ items o' !! 1%nat = Some item' ∧ length (items o') = 2%nat.
Proof.
  destruct (updateOrderItem_writes_zero_quantity
              sample_db sample_now "order1" "1" 1 sample_order termo None)
    as (o' & item' & Hrun & Hq & _ & Hsku & _ & _ & _ & _ & _ & Hstay & _);
    [reflexivity | reflexivity | lia | reflexivity |].
  destruct Hstay as (Hat & Hlen & _); [done |].
  exists o', item'. by repeat split.
Defined.

(** ** The move to [buy] *)

(** Inside the range of [items], a request that only asks for the move to
    [buy] rewrites both lists as they were. *)
Lemma move_to_buy_in_range
    db now orderId itemIndex (i : Z) (o : Order) (item : OrderItem) :
  orders db !! orderId = Some o →
  JS.parseInt itemIndex = JS.Int i →
  0 ≤ i →
  items o !! Z.to_nat i = Some item →
  updateOrderItem db now orderId itemIndex
      {| upd_quantity := None; upd_listType := Some buy |}
    = (Json 200 "Item updated",
       Firestore.update db orderId
         {| clientId := clientId o; status := status o; items := items o;
            wishlistItems := wishlistItems o; orderCode := orderCode o;
            createdAt := createdAt o; updatedAt := now;
            closedAt := closedAt o |}).
Proof.
  intros Ho Hparse Hi Hitem.
  erewrite updateOrderItem_in_range by done.
  cbn [upd_listType upd_quantity requested]. by rewrite list_insert_id.
Qed.

(** Outside the range of [items], an integer index is refused, whatever
    the request asks for. *)
Lemma updateOrderItem_out_of_range
    db now orderId itemIndex (i : Z) (o : Order) body :
  orders db !! orderId = Some o →
  JS.parseInt itemIndex = JS.Int i →
  updateOrderItemSchema body = true →
  i < 0 ∨ Z.of_nat (length (items o)) ≤ i →
  updateOrderItem db now orderId itemIndex body
    = (Failure 400 "Invalid item index", db).
Proof.
  intros Ho Hparse Hschema Hout.
  unfold updateOrderItem, validateRequest. rewrite Hschema, Ho, Hparse.
  rewrite data_items_length. unfold JS.lt, JS.ge.
  destruct Hout.
  - destruct (Z.ltb_spec i 0); [done | lia].
  - destruct (Z.leb_spec (Z.of_nat (length (items o))) i); [| lia].
    by rewrite orb_true_r.
Qed.

(** C1 (the handler does not do this). [order1] holds [bombilla] at index 0
    of its wishlist, and the request moves index 0 to [buy]: the answer is
    200, yet [bombilla] is still in [wishlistItems] and [items] has not
    grown. In [order2], whose [items] is empty, the same request is refused
    with Invalid Index although index 0 is inside [wishlistItems]. *)
Theorem move_to_buy_does_not_move :
  let request := {| upd_quantity := None; upd_listType := Some buy |} in
  wishlistItems sample_order !! 0%nat = Some bombilla
  ∧ (∃ o',
       updateOrderItem sample_db sample_now "order1" "0" request
         = (Json 200 "Item updated", Firestore.update sample_db "order1" o')
       ∧ wishlistItems o' = [bombilla] ∧ items o' = [mate; termo])
  ∧ wishlistItems wish_order !! 0%nat = Some bombilla
  ∧ updateOrderItem sample_db sample_now "order2" "0" request
      = (Failure 400 "Invalid item index", sample_db).
Proof.
  split; [done |]. split; [| split; [done |]].
  - eexists. split.
    + by apply (move_to_buy_in_range _ _ _ _ 0 sample_order mate).
    + done.
  - apply (updateOrderItem_out_of_range _ _ _ _ 0 wish_order);
      [done | done | done | simpl; lia].
Qed.

(** C2 (the handler does not do this for a move to [buy]). The only range
    check is against [items]. In [order1] index 1 is outside
    [wishlistItems], yet the move to [buy] is answered 200; in [order2]
    index 0 is inside [wishlistItems], yet the move to [buy] is refused with
    Invalid Index. *)
Theorem move_to_buy_is_checked_against_items :
  let request := {| upd_quantity := None; upd_listType := Some buy |} in
  (length (wishlistItems sample_order) = 1%nat
   ∧ (updateOrderItem sample_db sample_now "order1" "1" request).1
       = Json 200 "Item updated")
  ∧ (length (wishlistItems wish_order) = 1%nat
     ∧ (updateOrderItem sample_db sample_now "order2" "0" request).1
         = Failure 400 "Invalid item index").
Proof.
  split; (split; [done |]).
  - by rewrite (move_to_buy_in_range _ _ _ _ 1 sample_order termo).
  - rewrite (updateOrderItem_out_of_range _ _ _ _ 0 wish_order);
      [done | done | done | done | simpl; lia].
Qed.

(** ** Adding an item *)

(** The element handed to [arrayUnion] carries the [serverTimestamp()]
    sentinel in [addedAt], so the write is refused: the handler never
    changes the store. *)
Lemma addItemToOrder_never_writes db now orderId body :
  (addItemToOrder db now orderId body).2 = db.
Proof.
  unfold addItemToOrder, validateRequest.
  destruct (addToOrderSchema body); [| done].
  destruct (Firestore.where_sku db (add_sku body)) as [| [docId product] ?];
    [done |].
  by destruct (orders db !! orderId).
Qed.

(** C3 (the handler does not do this). [order1] and the product [SKU001]
    exist; adding SKU001 with quantity 2 twice is answered 500 both times
    and [items] is as long as before, not two entries longer. *)
Theorem addItemToOrder_twice_appends_nothing :
  let body := {| add_sku := "SKU001"; add_quantity := 2; add_color := None |} in
  let first := addItemToOrder sample_db sample_now "order1" body in
  let second := addItemToOrder first.2 (sample_now + 1) "order1" body in
  first.1
    = Failure 500 "FieldValue.serverTimestamp() cannot be used inside of an array"
  ∧ second.1
    = Failure 500 "FieldValue.serverTimestamp() cannot be used inside of an array"
  ∧ (items <$> orders second.2 !! "order1") = Some [mate; termo]
  ∧ second.2 = sample_db.
Proof.
  intros body first second.
  assert (Hfirst : first.2 = sample_db) by apply addItemToOrder_never_writes.
  assert (Hsecond : second.2 = sample_db).
  { unfold second. rewrite Hfirst. apply addItemToOrder_never_writes. }
  split; [done |].
  split; [unfold second; by rewrite Hfirst |].
  split; [by rewrite Hsecond | done].
Qed.

(** ** The subtotal *)

Lemma fold_subtotal (l : list OrderItem) (acc : Q) :
  (fold_left (fun sum item => sum + price item * inject_Z (quantity item)) l acc
   == acc + sum_price_quantity l)%Q.
Proof.
  revert acc. induction l as [| item rest IH]; intros acc; simpl.
  - ring.
  - rewrite IH. ring.
Qed.

Lemma calculateSubtotal_sum (l : list OrderItem) :
  (calculateSubtotal l == sum_price_quantity l)%Q.
Proof. unfold calculateSubtotal. rewrite fold_subtotal. ring. Qed.

Example subtotal_three_items :
  (calculateSubtotal [mate; termo; bombilla] == 375)%Q.
Proof. reflexivity. Qed.

Example subtotal_high_value : (calculateSubtotal [caro] == 999999 # 100)%Q.
Proof. reflexivity. Qed.

Lemma where_orderCode_elem db code docId data rest :
  Firestore.where_orderCode db code = (docId, data) :: rest →
  orders db !! docId = Some data ∧ orderCode data = Some code.
Proof.
  unfold Firestore.where_orderCode, Firestore.docs. intros Hq.
  assert (Hin : (docId, data)
                ∈ filter (fun doc => orderCode doc.2 = Some code)
                    (merge_sort Firestore.by_id (map_to_list (orders db)))).
  { destruct (filter _ _) as [| doc more]; [done |].
    simpl in Hq. injection Hq as -> _. apply list_elem_of_here. }
  apply list_elem_of_filter in Hin as [Hcode Hin].
  rewrite merge_sort_Permutation in Hin.
  by apply elem_of_map_to_list in Hin.
Qed.

Lemma where_orderCode_found db code docId data :
  orders db !! docId = Some data → orderCode data = Some code →
  Firestore.where_orderCode db code ≠ [].
Proof.
  intros Hdoc Hcode. unfold Firestore.where_orderCode, Firestore.docs.
  assert (Hin : (docId, data)
                ∈ filter (fun doc => orderCode doc.2 = Some code)
                    (merge_sort Firestore.by_id (map_to_list (orders db)))).
  { apply list_elem_of_filter. split; [done |].
    rewrite merge_sort_Permutation. by apply elem_of_map_to_list. }
  destruct (filter _ _); [by apply not_elem_of_nil in Hin | done].
Qed.




(** ** The status workflow *)

Lemma validStatuses_elem (s : string) :
  s ∈ validStatuses
  ↔ s = "pending" ∨ s = "confirmed" ∨ s = "processing" ∨ s = "ready"
    ∨ s = "completed" ∨ s = "cancelled".
Proof.
  unfold validStatuses. rewrite !elem_of_cons, elem_of_nil. tauto.
Qed.

(** C5. [setOrderStatus] accepts exactly the six workflow statuses: for
    any other string, ["shipped"] and ["closed"] among them, it fails with
    Invalid Status and the store is unchanged; for one of the six it
    succeeds on an existing order (and is Not Found otherwise), and the
    stored order then has the new [status] and [updatedAt], nothing else
    changed. *)
Theorem setOrderStatus_accepts_the_six_statuses db now orderId (s : string) :
  let workflow :=
    s = "pending" ∨ s = "confirmed" ∨ s = "processing" ∨ s = "ready"
    ∨ s = "completed" ∨ s = "cancelled" in
  (∀ o, orders db !! orderId = Some o →
     (workflow ↔ ∃ body db',
        setOrderStatus db now orderId (Some s) = (Json 200 body, db'))
     ∧ (workflow →
        setOrderStatus db now orderId (Some s)
          = (Json 200 ("Status updated", s),
             Firestore.update db orderId
               {| clientId := clientId o; status := s; items := items o;
                  wishlistItems := wishlistItems o; orderCode := orderCode o;
                  createdAt := createdAt o; updatedAt := now;
                  closedAt := closedAt o |})))
  ∧ (workflow → orders db !! orderId = None →
     setOrderStatus db now orderId (Some s)
       = (Failure 404 "Order not found", db))
  ∧ (¬ workflow →
     setOrderStatus db now orderId (Some s) = (Failure 400 "Invalid status", db))
  ∧ setOrderStatus db now orderId (Some "shipped")
      = (Failure 400 "Invalid status", db)
  ∧ setOrderStatus db now orderId (Some "closed")
      = (Failure 400 "Invalid status", db).
Proof.
  intros workflow.
  assert (Hyes : workflow → bool_decide (s ∈ validStatuses) = true).
  { intros Hw. apply bool_decide_eq_true. by apply validStatuses_elem. }
  assert (Hno : ¬ workflow → bool_decide (s ∈ validStatuses) = false).
  { intros Hw. apply bool_decide_eq_false. by rewrite validStatuses_elem. }
  split; [| split; [| split; [| split]]].
  - intros o Ho. split; [split |].
    + intros Hw. unfold setOrderStatus. rewrite (Hyes Hw), Ho. by eexists _, _.
    + intros (body & db' & Hrun). destruct (decide workflow) as [| Hw]; [done |].
      unfold setOrderStatus in Hrun. by rewrite (Hno Hw) in Hrun.
    + intros Hw. unfold setOrderStatus. by rewrite (Hyes Hw), Ho.
  - intros Hw Ho. unfold setOrderStatus. by rewrite (Hyes Hw), Ho.
  - intros Hw. unfold setOrderStatus. by rewrite (Hno Hw).
  - done.
  - done.
Qed.

Lemma setOrderStatus_accepts_the_six_statuses_witness :
  setOrderStatus sample_db sample_now "order1" (Some "ready")
    = (Json 200 ("Status updated", "ready"),
       Firestore.update sample_db "order1"
         {| clientId := "anonymous"; status := "ready";
            items := [mate; termo]; wishlistItems := [bombilla];
            orderCode := Some "AB12CD34"; createdAt := 1700000000;
            updatedAt := sample_now; closedAt := None |})
  ∧ setOrderStatus sample_db sample_now "order1" (Some "delivered")
      = (Failure 400 "Invalid status", sample_db).
Proof.
  pose proof (setOrderStatus_accepts_the_six_statuses
                sample_db sample_now "order1" "ready") as Hready.
  pose proof (setOrderStatus_accepts_the_six_statuses
                sample_db sample_now "order1" "delivered") as Hother.
  cbv zeta in Hready, Hother.
  destruct Hready as (Hready & _). destruct Hother as (_ & _ & Hother & _).
  split.
  - apply (Hready sample_order); [reflexivity | by do 3 right; left].
  - apply Hother. by intros [|[|[|[|[|]]]]].
Defined.

(** ** Closing an order *)

(** ** Path parameters *)

Lemma split_without_slash (s segment : string) :
  forallb (fun c => negb (Ascii.eqb c "/")) (list_ascii_of_string s) = true →
  DocumentPath.split s segment = [segment +:+ s].
Proof.
  revert segment. induction s as [| c s IH]; intros segment Hs; simpl.
  - f_equal. clear. induction segment as [| a t IH]; [done |].
    change (String a t = String a (t +:+ "")). by rewrite <- IH.
  - simpl in Hs. apply andb_true_iff in Hs as [Hc Hs].
    apply negb_true_iff in Hc. rewrite Hc, (IH _ Hs). f_equal.
    clear. induction segment as [| a t IH]; [done |].
    change (String a (t +:+ String c "") +:+ s = String a (t +:+ String c s)).
    by rewrite <- IH.
Qed.

Lemma contains_no_double_slash (s : string) :
  forallb (fun c => negb (Ascii.eqb c "/")) (list_ascii_of_string s) = true →
  DocumentPath.contains "//" s = false.
Proof.
  unfold DocumentPath.contains. intros Hs.
  assert (Hnone : String.index 0 "//" s = None); [| by rewrite Hnone].
  induction s as [| c s IH]; [done |].
  simpl in Hs. apply andb_true_iff in Hs as [Hc Hs].
  apply negb_true_iff, Ascii.eqb_neq in Hc.
  cbn [String.index].
  destruct (String.prefix "//" (String c s)) eqn:Hp.
  - apply prefix_correct in Hp. simpl in Hp. congruence.
  - by rewrite (IH Hs).
Qed.

(** An id without a slash that the server does not refuse names the
    document with that id. *)
Lemma resolve_document_id (id : string) :
  id ≠ "" →
  forallb (fun c => negb (Ascii.eqb c "/")) (list_ascii_of_string id) = true →
  DocumentPath.refused id = false →
  DocumentPath.resolve id = Resolved (DocumentPath.Document id).
Proof.
  intros Hne Hslash Hrefused. unfold DocumentPath.resolve.
  rewrite (bool_decide_eq_false_2 _ Hne), (contains_no_double_slash _ Hslash).
  unfold DocumentPath.segments.
  rewrite (split_without_slash _ _ Hslash).
  change ("" +:+ id) with id.
  rewrite filter_cons_True by done. rewrite filter_nil.
  cbn [length Nat.even existsb]. by rewrite Hrefused.
Qed.

(** [closeOrder] on a document id: Not Found when the collection has no
    such document; otherwise the order is closed, whatever its status, and
    nothing else in the store is changed. *)
Lemma closeOrder_of_a_document db now id :
  (orders db !! id = None →
   closeOrder db now id = (Failure 404 "Order not found", db))
  ∧ (∀ o, orders db !! id = Some o →
     ∃ o' db',
       closeOrder db now id = (Json 200 "Order closed", db')
       ∧ orders db' !! id = Some o'
       ∧ status o' = "closed" ∧ closedAt o' = Some now
       ∧ items o' = items o ∧ wishlistItems o' = wishlistItems o
       ∧ orderCode o' = orderCode o ∧ clientId o' = clientId o
       ∧ createdAt o' = createdAt o ∧ updatedAt o' = updatedAt o
       ∧ (∀ other, other ≠ id → orders db' !! other = orders db !! other)
       ∧ products db' = products db).
Proof.
  unfold closeOrder. split.
  - by intros ->.
  - intros o ->. eexists _, _. split; [reflexivity |]. simpl.
    split; [by rewrite lookup_insert_eq |].
    repeat split. intros other Hother. by rewrite lookup_insert_ne.
Qed.

(** C8, as the route behaves. When the [orderId] of the request names a
    document of the collection ([doc(orderId)] and the read of it
    succeed), closing fails with Not Found, and leaves the store as it is,
    if that order is absent; otherwise, whatever the current status, it
    sets [status] to ["closed"] and [closedAt] to the commit time, and
    changes no other field of the order ([items], [wishlistItems],
    [orderCode], [clientId], [createdAt], [updatedAt]), no other order and
    no product. *)
Theorem close_order_route_sets_closed_and_closedAt db now orderId id :
  DocumentPath.resolve orderId = Resolved (DocumentPath.Document id) →
  (orders db !! id = None →
   close_order_route db now orderId = (Failure 404 "Order not found", db))
  ∧ (∀ o, orders db !! id = Some o →
     ∃ o' db',
       close_order_route db now orderId = (Json 200 "Order closed", db')
       ∧ orders db' !! id = Some o'
       ∧ status o' = "closed" ∧ closedAt o' = Some now
       ∧ items o' = items o ∧ wishlistItems o' = wishlistItems o
       ∧ orderCode o' = orderCode o ∧ clientId o' = clientId o
       ∧ createdAt o' = createdAt o ∧ updatedAt o' = updatedAt o
       ∧ (∀ other, other ≠ id → orders db' !! other = orders db !! other)
       ∧ products db' = products db).
Proof.
  intros Hpath. unfold close_order_route. rewrite Hpath.
  apply closeOrder_of_a_document.
Qed.

Lemma close_order_route_sets_closed_and_closedAt_witness :
  DocumentPath.resolve "order2" = Resolved (DocumentPath.Document "order2")
  ∧ close_order_route sample_db sample_now "order9"
    = (Failure 404 "Order not found", sample_db)
  ∧ ∃ o' db',
      close_order_route sample_db sample_now "order2"
        = (Json 200 "Order closed", db')
      ∧ orders db' !! "order2" = Some o'
      ∧ status wish_order = "confirmed"
      ∧ status o' = "closed" ∧ closedAt o' = Some sample_now
      ∧ wishlistItems o' = [bombilla].
Proof.
  split; [reflexivity |].
  destruct (close_order_route_sets_closed_and_closedAt
              sample_db sample_now "order9" "order9") as [Habsent _];
    [reflexivity |].
  destruct (close_order_route_sets_closed_and_closedAt
              sample_db sample_now "order2" "order2") as [_ Hpresent];
    [reflexivity |].
  split; [by apply Habsent |].
  destruct (Hpresent wish_order) as
    (o' & db' & Hrun & Hdoc & Hstatus & Hclosed & _ & Hwish & _);
    [reflexivity |].
  exists o', db'. by repeat split.
Defined.

(** The [orderId] ["a/b"] (sent as [a%2Fb]) names no document: the
    collection holds no order under it, yet the answer is 500, not Not
    Found. *)
Lemma close_order_route_is_not_Not_Found_for_a_collection_path :
  orders sample_db !! "a/b" = None
  ∧ (∃ message,
       close_order_route sample_db sample_now "a/b"
       = (Failure 500 message, sample_db))
  ∧ (close_order_route sample_db sample_now "a/b").1
    ≠ Failure 404 "Order not found".
Proof.
  split; [reflexivity |]. split; [by eexists | done].
Qed.

(** ** The order code *)

Lemma random_position_range (r : Q) :
  (0 <= r < 1)%Q → 0 ≤ random_position r < 36.
Proof.
  intros [Hlo Hhi]. unfold random_position.
  change (inject_Z (Z.of_nat (String.length chars))) with (36 # 1)%Q.
  split.
  - change 0 with (Qfloor 0). apply Qfloor_resp_le.
    by apply Qmult_le_0_compat.
  - rewrite Zlt_Qlt. eapply Qle_lt_trans; [apply Qfloor_le |].
    change (inject_Z 36) with (1 * (36 # 1))%Q.
    by apply Qmult_lt_compat_r.
Qed.

(** Every position below 36 holds one character of the code alphabet. *)
Lemma charAt_chars (k : Z) :
  0 ≤ k < 36 →
  ∃ c, JS.charAt chars k = String c EmptyString ∧ is_code_char c = true.
Proof.
  intros Hk.
  assert (Hall : forallb
                   (fun n => match JS.charAt chars (Z.of_nat n) with
                             | String c EmptyString => is_code_char c
                             | _ => false
                             end)
                   (seq 0 36) = true) by reflexivity.
  rewrite forallb_forall in Hall.
  specialize (Hall (Z.to_nat k)).
  rewrite Z2Nat.id in Hall by lia.
  destruct (JS.charAt chars k) as [| c [| ? ?]];
    try (discriminate Hall; apply in_seq; lia).
  exists c. split; [done |]. apply Hall, in_seq. lia.
Qed.

Lemma length_append_char (s : string) (c : ascii) :
  String.length (s +:+ String c EmptyString) = S (String.length s).
Proof. induction s as [| a s IH]; simpl; [done | by rewrite IH]. Qed.

Lemma list_ascii_append_char (s : string) (c : ascii) :
  list_ascii_of_string (s +:+ String c EmptyString)
    = list_ascii_of_string s ++ [c].
Proof. induction s as [| a s IH]; simpl; [done | by rewrite IH]. Qed.

(** The loop adds one character of the alphabet per round. *)
Lemma generate_loop_format (random : nat → Q) (n i : nat) (code : string) :
  (∀ j, (0 <= random j < 1)%Q) →
  forallb is_code_char (list_ascii_of_string code) = true →
  String.length (generate_loop random n i code) = (String.length code + n)%nat
  ∧ forallb is_code_char
      (list_ascii_of_string (generate_loop random n i code)) = true.
Proof.
  intros Hrandom. revert i code.
  induction n as [| n IH]; intros i code Hcode; simpl.
  - by rewrite Nat.add_0_r.
  - destruct (charAt_chars _ (random_position_range _ (Hrandom i)))
      as (c & -> & Hc).
    destruct (IH (S i) (code +:+ String c EmptyString)) as [Hlen Hchars].
    + rewrite list_ascii_append_char, forallb_app, Hcode. simpl.
      by rewrite Hc.
    + split; [| done]. rewrite Hlen, length_append_char. lia.
Qed.

(** C9. Whatever the draws of [Math.random()] (each in [0, 1)),
    [generateOrderCode] returns a string of exactly 8 characters, each one
    of [A-Z0-9], so that it matches [^[A-Z0-9]{8}$]; and [createOrder], given
    a fresh document id, answers 201 with that code and stores a pending
    order with empty lists that carries the code, touching no other
    order. *)
Theorem generateOrderCode_matches_the_format (random : nat → Q) :
  (∀ i, (0 <= random i < 1)%Q) →
  String.length (generateOrderCode random) = 8%nat
  ∧ (∀ c, In c (list_ascii_of_string (generateOrderCode random)) →
          is_code_char c = true)
  ∧ matches_order_code (generateOrderCode random) = true
  ∧ ∀ db now newId client listType,
      orders db !! newId = None →
      ∃ o db',
        createOrder db now newId random client listType
          = (Json 201 {| created_orderId := newId;
                         created_orderCode := generateOrderCode random;
                         created_status := "pending" |}, db')
        ∧ orders db' !! newId = Some o
        ∧ status o = "pending" ∧ items o = [] ∧ wishlistItems o = []
        ∧ orderCode o = Some (generateOrderCode random)
        ∧ createdAt o = now ∧ closedAt o = None
        ∧ (∀ other, other ≠ newId → orders db' !! other = orders db !! other).
Proof.
  intros Hrandom.
  destruct (generate_loop_format random 8 0 "" Hrandom eq_refl)
    as [Hlen Hchars].
  fold (generateOrderCode random) in Hlen, Hchars. simpl in Hlen.
  split; [done |]. split; [by apply forallb_forall |].
  split; [unfold matches_order_code; by rewrite Hlen, Hchars |].
  intros db now newId client listType Hfresh.
  unfold createOrder, Firestore.add. rewrite Hfresh.
  eexists _, _. split; [reflexivity |]. simpl.
  split; [by rewrite lookup_insert_eq |].
  repeat split. intros other Hother.
  by rewrite !lookup_insert_ne.
Qed.

Lemma sample_random_range (i : nat) : (0 <= sample_random i < 1)%Q.
Proof.
  unfold sample_random.
  do 8 (destruct i as [| i]; [by vm_compute |]).
  destruct i; by vm_compute.
Qed.

Lemma generateOrderCode_matches_the_format_witness :
  generateOrderCode sample_random = "AS9B90MZ"
  ∧ matches_order_code (generateOrderCode sample_random) = true
  ∧ ∃ o db',
      createOrder sample_db sample_now "order3" sample_random None None
        = (Json 201 {| created_orderId := "order3";
                       created_orderCode := generateOrderCode sample_random;
                       created_status := "pending" |}, db')
      ∧ orders db' !! "order3" = Some o
      ∧ status o = "pending"
      ∧ orderCode o = Some (generateOrderCode sample_random).
Proof.
  split; [reflexivity |].
  destruct (generateOrderCode_matches_the_format sample_random)
    as (_ & _ & Hmatch & Hcreate); [apply sample_random_range |].
  split; [exact Hmatch |].
  destruct (Hcreate sample_db sample_now "order3" None None)
    as (o & db' & Hrun & Hdoc & Hstatus & _ & _ & Hcode & _);
    [reflexivity |].
  exists o, db'. by repeat split.
Defined.

(** * Further properties of the order routes *)

(** ** [splice(start, 1)] in general *)

(** Whatever the start, [splice(start, 1)] removes nothing or exactly one
    element of the array. *)
Lemma splice_one {A} (arr : list A) (start : JS.num) removed rest :
  JS.splice arr start 1 = (removed, rest) →
  (removed = [] ∧ rest = arr)
  ∨ ∃ x n, removed = [x] ∧ arr !! n = Some x ∧ rest = delete n arr.
Proof.
  unfold JS.splice.
  set (len := Z.of_nat (length arr)).
  set (s := JS.splice_start start len).
  assert (Hs : 0 ≤ s ≤ len).
  { unfold s, JS.splice_start. destruct start as [| z]; [lia |].
    destruct (Z.ltb_spec z 0); lia. }
  intros [= <- <-].
  destruct (decide (s = len)) as [Heq | Hne].
  - left. replace (Z.to_nat (Z.min (Z.max 1 0) (len - s))) with 0%nat by lia.
    split; [done |]. by rewrite Nat.add_0_r, take_drop.
  - right. replace (Z.to_nat (Z.min (Z.max 1 0) (len - s))) with 1%nat by lia.
    destruct (lookup_lt_is_Some_2 arr (Z.to_nat s)) as [x Hx]; [lia |].
    exists x, (Z.to_nat s). rewrite (drop_S _ _ _ Hx), delete_take_drop.
    by replace (Z.to_nat s + 1)%nat with (S (Z.to_nat s)) by lia.
Qed.

Lemma assign_quantity_lengths orderData index quantity orderData' :
  assign_quantity orderData index quantity = Some orderData' →
  length (data_items orderData') = length (data_items orderData)
  ∧ data_wishlistItems orderData' = data_wishlistItems orderData.
Proof.
  unfold assign_quantity. intros Hrun.
  destruct quantity as [q |]; [| by injection Hrun as <-].
  destruct (0 <=? q); [| by injection Hrun as <-].
  destruct (JS.get _ _) as [obj |], index as [| z]; try done.
  injection Hrun as <-. simpl. by rewrite length_insert.
Qed.

Lemma move_item_lengths orderData index listType orderData' :
  move_item orderData index listType = Some orderData' →
  (length (data_items orderData') + length (data_wishlistItems orderData')
   = length (data_items orderData) + length (data_wishlistItems orderData))%nat.
Proof.
  unfold move_item. intros Hrun.
  destruct listType as [[|] |]; [| | by injection Hrun as <-].
  - destruct (negb _); [| by injection Hrun as <-].
    destruct (JS.splice _ _ _) as [removed rest] eqn:Hsplice.
    destruct (splice_one _ _ _ _ Hsplice)
      as [[-> ->] | (x & n & -> & Hx & ->)]; [done |].
    injection Hrun as <-. simpl.
    rewrite length_app, length_delete by eauto.
    apply lookup_lt_Some in Hx. simpl. lia.
  - destruct (JS.splice _ _ _) as [removed rest] eqn:Hsplice.
    destruct (splice_one _ _ _ _ Hsplice)
      as [[-> ->] | (x & n & -> & Hx & ->)]; [done |].
    injection Hrun as <-. simpl.
    rewrite length_app, length_delete by eauto.
    apply lookup_lt_Some in Hx. simpl. lia.
Qed.

(** X1. Whenever [updateOrderItem] answers 200, for any [itemIndex] string
    and any body, the order has as many line items as before ([items] and
    [wishlistItems] together), its [clientId], [status], [orderCode],
    [createdAt] and [closedAt] are untouched, [updatedAt] is the commit
    time, and no other order and no product has changed. *)
Theorem updateOrderItem_keeps_the_line_items
    db now orderId itemIndex body (o : Order) message db' :
  orders db !! orderId = Some o →
  updateOrderItem db now orderId itemIndex body = (Json 200 message, db') →
  ∃ o',
    orders db' !! orderId = Some o'
    ∧ (length (items o') + length (wishlistItems o')
       = length (items o) + length (wishlistItems o))%nat
    ∧ clientId o' = clientId o ∧ status o' = status o
    ∧ orderCode o' = orderCode o ∧ createdAt o' = createdAt o
    ∧ closedAt o' = closedAt o ∧ updatedAt o' = now
    ∧ (∀ other, other ≠ orderId → orders db' !! other = orders db !! other)
    ∧ products db' = products db.
Proof.
  intros Ho. unfold updateOrderItem, validateRequest.
  destruct (updateOrderItemSchema body); [| done]. rewrite Ho.
  destruct (_ || _); [done |].
  destruct (assign_quantity _ _ _) as [od1 |] eqn:Hassign; [| done].
  destruct (move_item _ _ _) as [od2 |] eqn:Hmove; [| done].
  intros [= _ <-].
  apply assign_quantity_lengths in Hassign as [Hlen1 Hwish1].
  apply move_item_lengths in Hmove.
  eexists. split; [apply lookup_insert_eq |]. simpl.
  split.
  - rewrite !length_fmap, Hmove, Hlen1, Hwish1.
    unfold data. simpl. by rewrite !length_imap.
  - repeat split. intros other Hother. by apply lookup_insert_ne.
Qed.

Lemma updateOrderItem_keeps_the_line_items_witness :
  ∃ o',
    orders (updateOrderItem sample_db sample_now "order1" "abc"
              {| upd_quantity := None; upd_listType := Some buy |}).2
      !! "order1" = Some o'
    ∧ (length (items o') + length (wishlistItems o') = 3)%nat
    ∧ status o' = "pending".
Proof.
  destruct (updateOrderItem_keeps_the_line_items
              sample_db sample_now "order1" "abc"
              {| upd_quantity := None; upd_listType := Some buy |}
              sample_order "Item updated"
              (updateOrderItem sample_db sample_now "order1" "abc"
                 {| upd_quantity := None; upd_listType := Some buy |}).2)
    as (o' & Hdoc & Hcount & _ & Hstatus & _);
    [reflexivity | reflexivity |].
  exists o'. by repeat split.
Defined.

(** X2. A request to change an order or its items that is answered with
    an error changes nothing in the store: each of these five handlers
    writes once, as its last step. *)
Theorem failed_order_requests_change_nothing db now :
  (∀ orderId itemIndex body c e,
     (updateOrderItem db now orderId itemIndex body).1 = Failure c e →
     (updateOrderItem db now orderId itemIndex body).2 = db)
  ∧ (∀ orderId itemIndex c e,
       (removeOrderItem db now orderId itemIndex).1 = Failure c e →
       (removeOrderItem db now orderId itemIndex).2 = db)
  ∧ (∀ orderId body c e,
       (addItemToOrder db now orderId body).1 = Failure c e →
       (addItemToOrder db now orderId body).2 = db)
  ∧ (∀ orderId c e,
       (closeOrder db now orderId).1 = Failure c e →
       (closeOrder db now orderId).2 = db)
  ∧ (∀ orderId status c e,
       (setOrderStatus db now orderId status).1 = Failure c e →
       (setOrderStatus db now orderId status).2 = db).
Proof.
  repeat split.
  - intros orderId itemIndex body c e.
    unfold updateOrderItem, validateRequest. by repeat case_match.
  - intros orderId itemIndex c e. unfold removeOrderItem.
    by repeat case_match.
  - intros orderId body c e.
    unfold addItemToOrder, validateRequest. by repeat case_match.
  - intros orderId c e. unfold closeOrder. by repeat case_match.
  - intros orderId status c e. unfold setOrderStatus. by repeat case_match.
Qed.

Lemma failed_order_requests_change_nothing_witness :
  (updateOrderItem sample_db sample_now "order1" "7"
     {| upd_quantity := Some 4; upd_listType := None |}).1
    = Failure 400 "Invalid item index"
  ∧ (updateOrderItem sample_db sample_now "order1" "7"
       {| upd_quantity := Some 4; upd_listType := None |}).2 = sample_db.
Proof.
  split; [reflexivity |].
  destruct (failed_order_requests_change_nothing sample_db sample_now)
    as (Hupdate & _).
  by apply (Hupdate "order1" "7" _ 400 "Invalid item index").
Defined.

(** ** A path parameter that is not a number *)

Lemma val_imap_gen (f : nat → OrderItem → Obj) (l : list OrderItem) :
  (∀ i v, val (f i v) = v) → val <$> imap f l = l.
Proof.
  revert f. induction l as [| x l IH]; intros f Hf; [done |].
  rewrite imap_cons. simpl. rewrite Hf. f_equal. apply IH.
  intros i v. apply Hf.
Qed.

Lemma splice_NaN_data_items (o : Order) first rest :
  items o = first :: rest →
  ∃ obj objs,
    JS.splice (data_items (data o)) JS.NaN 1 = ([obj], objs)
    ∧ val obj = first ∧ val <$> objs = rest.
Proof.
  intros Hi. unfold data. cbn [data_items]. rewrite Hi, imap_cons.
  eexists _, _. split; [apply splice_NaN_cons |].
  split; [done | by apply val_imap_gen].
Qed.

Lemma splice_NaN_data_wishlistItems (o : Order) first rest :
  wishlistItems o = first :: rest →
  ∃ obj objs,
    JS.splice (data_wishlistItems (data o)) JS.NaN 1 = ([obj], objs)
    ∧ val obj = first ∧ val <$> objs = rest.
Proof.
  intros Hw. unfold data. cbn [data_wishlistItems]. rewrite Hw, imap_cons.
  eexists _, _. split; [apply splice_NaN_cons |].
  split; [done | by apply val_imap_gen].
Qed.

(** X3. What [updateOrderItem] does when [parseInt(itemIndex)] is [NaN]
    (the bounds check lets it through). With a quantity the assignment
    throws and the answer is 500. Without one, the move to [buy] takes the
    first wishlist item and appends it to [items], the move to [wishlist]
    takes the first item and appends it to [wishlistItems], each answering
    500 when its source list is empty; with neither, the lists are written
    back as they are. *)
Theorem updateOrderItem_with_NaN_index db now orderId itemIndex (o : Order) :
  orders db !! orderId = Some o →
  JS.parseInt itemIndex = JS.NaN →
  let after (l w : list OrderItem) :=
    Firestore.update db orderId
      {| clientId := clientId o; status := status o; items := l;
         wishlistItems := w; orderCode := orderCode o;
         createdAt := createdAt o; updatedAt := now;
         closedAt := closedAt o |} in
  let run quantity listType :=
    updateOrderItem db now orderId itemIndex
      {| upd_quantity := quantity; upd_listType := listType |} in
  (∀ q listType, 0 ≤ q →
     run (Some q) listType
       = (Failure 500 "Cannot set properties of undefined", db))
  ∧ (∀ first rest, wishlistItems o = first :: rest →
     run None (Some buy)
       = (Json 200 "Item updated", after (items o ++ [first]) rest))
  ∧ (∀ first rest, items o = first :: rest →
     run None (Some wishlist)
       = (Json 200 "Item updated", after rest (wishlistItems o ++ [first])))
  ∧ (wishlistItems o = [] →
     run None (Some buy)
       = (Failure 500 "Cannot use undefined as a Firestore value", db))
  ∧ (items o = [] →
     run None (Some wishlist)
       = (Failure 500 "Cannot use undefined as a Firestore value", db))
  ∧ run None None
      = (Json 200 "Item updated", after (items o) (wishlistItems o)).
Proof.
  intros Ho Hnan after run. unfold run, after, updateOrderItem, validateRequest.
  repeat split.
  - intros q listType Hq. unfold updateOrderItemSchema. simpl.
    destruct (Z.leb_spec 0 q); [| lia]. rewrite Ho, Hnan. simpl.
    by destruct (Z.leb_spec 0 q); [| lia].
  - intros first rest Hw. cbn [updateOrderItemSchema upd_quantity]. rewrite Ho, Hnan.
    cbv [JS.lt JS.ge orb assign_quantity upd_quantity upd_listType move_item
         JS.get includes negb].
    destruct (splice_NaN_data_wishlistItems o first rest Hw)
      as (obj & objs & -> & <- & <-).
    cbn [data_items data_wishlistItems].
    by rewrite fmap_app, data_items_val.
  - intros first rest Hi. cbn [updateOrderItemSchema upd_quantity]. rewrite Ho, Hnan.
    cbv [JS.lt JS.ge orb assign_quantity upd_quantity upd_listType move_item].
    destruct (splice_NaN_data_items o first rest Hi)
      as (obj & objs & -> & <- & <-).
    cbn [data_items data_wishlistItems].
    by rewrite fmap_app, data_wishlistItems_val.
  - intros Hw. cbn [updateOrderItemSchema upd_quantity]. rewrite Ho, Hnan.
    cbv [JS.lt JS.ge orb assign_quantity upd_quantity upd_listType move_item
         JS.get includes negb].
    unfold data. cbn [data_wishlistItems]. by rewrite Hw.
  - intros Hi. cbn [updateOrderItemSchema upd_quantity]. rewrite Ho, Hnan.
    cbv [JS.lt JS.ge orb assign_quantity upd_quantity upd_listType move_item].
    unfold data. cbn [data_items]. by rewrite Hi.
  - cbn [updateOrderItemSchema upd_quantity]. rewrite Ho, Hnan.
    cbv [JS.lt JS.ge orb assign_quantity upd_quantity upd_listType move_item].
    by rewrite data_items_val, data_wishlistItems_val.
Qed.

Lemma updateOrderItem_with_NaN_index_witness :
  ∃ o',
    updateOrderItem sample_db sample_now "order1" "abc"
        {| upd_quantity := None; upd_listType := Some buy |}
      = (Json 200 "Item updated", Firestore.update sample_db "order1" o')
    ∧ items o' = [mate; termo; bombilla] ∧ wishlistItems o' = [].
Proof.
  pose proof (updateOrderItem_with_NaN_index
                sample_db sample_now "order1" "abc" sample_order
                eq_refl eq_refl) as Hnan.
  cbv zeta in Hnan. destruct Hnan as (_ & Hbuy & _).
  eexists. split; [by apply (Hbuy bombilla [])|]. done.
Defined.

(** ** How the order routes compose *)

(** X4. After a valid request has moved the item at an index inside [items]
    to the wishlist, [getOrder] shows the order without that item in
    [items], with the item (carrying the requested quantity, if one was
    sent with the move) at the end of [wishlistItems], and with a subtotal
    computed over the remaining items only. *)
Theorem move_to_wishlist_then_getOrder
    db now orderId itemIndex (i : Z) (o : Order) (item : OrderItem) quantity :
  orders db !! orderId = Some o →
  JS.parseInt itemIndex = JS.Int i →
  0 ≤ i →
  items o !! Z.to_nat i = Some item →
  (∀ q, quantity = Some q → 0 ≤ q) →
  ∃ v,
    getOrder
      (updateOrderItem db now orderId itemIndex
         {| upd_quantity := quantity; upd_listType := Some wishlist |}).2
      orderId = Json 200 v
    ∧ items (view_data v) = delete (Z.to_nat i) (items o)
    ∧ wishlistItems (view_data v)
      = wishlistItems o ++ [requested quantity item]
    ∧ view_subtotal v = calculateSubtotal (delete (Z.to_nat i) (items o)).
Proof.
  intros Ho Hparse Hi Hitem Hq.
  erewrite updateOrderItem_in_range; [| done | done | done | done |].
  2:{ unfold updateOrderItemSchema. simpl. destruct quantity as [q |]; [| done].
      specialize (Hq q eq_refl). lia. }
  unfold getOrder. simpl. rewrite lookup_insert_eq. by eexists.
Qed.

Lemma move_to_wishlist_then_getOrder_witness :
  ∃ v,
    getOrder
      (updateOrderItem sample_db sample_now "order1" "0"
         {| upd_quantity := Some 5; upd_listType := Some wishlist |}).2
      "order1" = Json 200 v
    ∧ items (view_data v) = [termo]
    ∧ wishlistItems (view_data v) = [bombilla; with_quantity 5 mate]
    ∧ (view_subtotal v == 150)%Q.
Proof.
  destruct (move_to_wishlist_then_getOrder
              sample_db sample_now "order1" "0" 0 sample_order mate (Some 5))
    as (v & Hv & Hitems & Hwish & Hsub);
    [reflexivity | reflexivity | lia | reflexivity | |].
  { intros q [= <-]. lia. }
  exists v. rewrite Hsub. by repeat split.
Defined.

(** X5. A quantity update at an index inside [items] replaces the quantity
    of that item and nothing else in either list, and sending the same
    request again changes neither list any further. *)
Theorem quantity_update_is_idempotent
    db now later orderId itemIndex (i q : Z) (o : Order) (item : OrderItem) :
  orders db !! orderId = Some o →
  JS.parseInt itemIndex = JS.Int i →
  0 ≤ i →
  items o !! Z.to_nat i = Some item →
  0 ≤ q →
  let body := {| upd_quantity := Some q; upd_listType := None |} in
  let first := updateOrderItem db now orderId itemIndex body in
  let second := updateOrderItem first.2 later orderId itemIndex body in
  ∃ o1 o2,
    first = (Json 200 "Item updated", Firestore.update db orderId o1)
    ∧ second = (Json 200 "Item updated", Firestore.update first.2 orderId o2)
    ∧ items o1 = <[Z.to_nat i := with_quantity q item]> (items o)
    ∧ wishlistItems o1 = wishlistItems o
    ∧ items o2 = items o1 ∧ wishlistItems o2 = wishlistItems o1.
Proof.
  intros Ho Hparse Hi Hitem Hq body first second.
  assert (Hlen : (Z.to_nat i < length (items o))%nat)
    by (by eapply lookup_lt_Some).
  assert (Hschema : updateOrderItemSchema body = true).
  { unfold updateOrderItemSchema, body. simpl. lia. }
  assert (Hfirst : first = _)
    by (by apply (updateOrderItem_in_range db now orderId itemIndex i o item)).
  eexists _, _. split; [exact Hfirst |].
  split.
  - unfold second. rewrite Hfirst. cbn [snd].
    eapply (updateOrderItem_in_range _ later orderId itemIndex i _
              (with_quantity q item)); try done.
    + cbn [Firestore.update orders]. apply lookup_insert_eq.
    + cbn [items upd_listType body]. by apply list_lookup_insert_eq.
  - cbn [items wishlistItems upd_listType upd_quantity requested body].
    repeat split. by rewrite list_insert_insert_eq.
Qed.

Lemma quantity_update_is_idempotent_witness :
  ∃ o1 o2,
    updateOrderItem sample_db sample_now "order1" "1"
        {| upd_quantity := Some 7; upd_listType := None |}
      = (Json 200 "Item updated", Firestore.update sample_db "order1" o1)
    ∧ items o1 = [mate; with_quantity 7 termo]
    ∧ items o2 = items o1.
Proof.
  pose proof (quantity_update_is_idempotent
                sample_db sample_now (sample_now + 5) "order1" "1" 1 7
                sample_order termo) as Htwice.
  cbv zeta in Htwice.
  destruct Htwice as (o1 & o2 & Hfirst & _ & Hitems & _ & Hsame & _);
    [reflexivity | reflexivity | lia | reflexivity | lia |].
  exists o1, o2. by repeat split.
Defined.

(** X6. Whatever the [itemIndex] string, when [removeOrderItem] answers 200
    it has removed at most one element of [items] (the rest keep their
    order), has left [wishlistItems] and the other fields but [updatedAt]
    alone, and has changed no other order and no product. *)
Theorem removeOrderItem_removes_at_most_one
    db now orderId itemIndex (o : Order) message db' :
  orders db !! orderId = Some o →
  removeOrderItem db now orderId itemIndex = (Json 200 message, db') →
  ∃ o',
    orders db' !! orderId = Some o'
    ∧ (items o' = items o ∨ ∃ n, n < length (items o)
                               ∧ items o' = delete n (items o))%nat
    ∧ wishlistItems o' = wishlistItems o
    ∧ clientId o' = clientId o ∧ status o' = status o
    ∧ orderCode o' = orderCode o ∧ createdAt o' = createdAt o
    ∧ closedAt o' = closedAt o ∧ updatedAt o' = now
    ∧ (∀ other, other ≠ orderId → orders db' !! other = orders db !! other)
    ∧ products db' = products db.
Proof.
  intros Ho. unfold removeOrderItem. rewrite Ho.
  destruct (_ || _); [done |].
  destruct (JS.splice (items o) (JS.parseInt itemIndex) 1)
    as [removed rest] eqn:Hsplice.
  cbn [snd]. intros [= _ <-].
  eexists. split; [apply lookup_insert_eq |].
  cbn [items wishlistItems clientId status orderCode createdAt closedAt
       updatedAt Firestore.update orders products].
  split.
  - destruct (splice_one _ _ _ _ Hsplice)
      as [[_ ->] | (x & n & _ & Hx & ->)]; [by left |].
    right. exists n. split; [by eapply lookup_lt_Some | done].
  - repeat split. intros other Hother. by apply lookup_insert_ne.
Qed.

Lemma removeOrderItem_removes_at_most_one_witness :
  ∃ o',
    orders (removeOrderItem sample_db sample_now "order2" "x").2 !! "order2"
      = Some o'
    ∧ wishlistItems o' = [bombilla] ∧ updatedAt o' = sample_now.
Proof.
  destruct (removeOrderItem_removes_at_most_one
              sample_db sample_now "order2" "x" wish_order "Item deleted"
              (removeOrderItem sample_db sample_now "order2" "x").2)
    as (o' & Hdoc & _ & Hwish & _ & _ & _ & _ & _ & Hnow & _);
    [reflexivity | reflexivity |].
  exists o'. by repeat split.
Defined.

(** X7. Closing an order does not end its workflow: a later status update
    with one of the six statuses succeeds and puts the order back into that
    status, while [closedAt] keeps the time of the closing. *)
Theorem closed_order_can_be_reopened
    db now later orderId (o : Order) (s : string) :
  orders db !! orderId = Some o →
  s ∈ validStatuses →
  ∃ o',
    setOrderStatus (closeOrder db now orderId).2 later orderId (Some s)
      = (Json 200 ("Status updated", s),
         Firestore.update (closeOrder db now orderId).2 orderId o')
    ∧ status o' = s ∧ closedAt o' = Some now ∧ updatedAt o' = later
    ∧ items o' = items o ∧ wishlistItems o' = wishlistItems o.
Proof.
  intros Ho Hs. unfold closeOrder. rewrite Ho. cbn [snd].
  unfold setOrderStatus. rewrite (bool_decide_eq_true_2 _ Hs).
  cbn [Firestore.update orders]. rewrite lookup_insert_eq.
  by eexists.
Qed.

Lemma closed_order_can_be_reopened_witness :
  ∃ o',
    setOrderStatus (closeOrder sample_db sample_now "order1").2
        (sample_now + 60) "order1" (Some "pending")
      = (Json 200 ("Status updated", "pending"),
         Firestore.update (closeOrder sample_db sample_now "order1").2
           "order1" o')
    ∧ status o' = "pending" ∧ closedAt o' = Some sample_now.
Proof.
  destruct (closed_order_can_be_reopened
              sample_db sample_now (sample_now + 60) "order1" sample_order
              "pending")
    as (o' & Hrun & Hstatus & Hclosed & _);
    [reflexivity | by apply (bool_decide_eq_true_1 _) |].
  exists o'. by repeat split.
Defined.

(** X8. The order that [createOrder] stores under a fresh id is empty and
    pending: [getOrder] returns it with no items, an empty wishlist,
    subtotal 0, the generated code and the client id of the request
    (["anonymous"] without one); [getOrderByCode] finds an order for the
    generated code; and every integer item index is refused, by
    [removeOrderItem] and by [updateOrderItem], with Invalid Index. *)
Theorem new_order_is_empty
    db now newId random (client : option string) listType :
  orders db !! newId = None →
  let db' := (createOrder db now newId random client listType).2 in
  (∃ v,
     getOrder db' newId = Json 200 v
     ∧ items (view_data v) = [] ∧ wishlistItems (view_data v) = []
     ∧ view_subtotal v = 0%Q ∧ status (view_data v) = "pending"
     ∧ orderCode (view_data v) = Some (generateOrderCode random)
     ∧ clientId (view_data v) = or_else client "anonymous")
  ∧ (∃ v,
       getOrderByCode db' (generateOrderCode random) = Json 200 v
       ∧ orderCode (view_data v) = Some (generateOrderCode random))
  ∧ (∀ later itemIndex i,
       JS.parseInt itemIndex = JS.Int i →
       removeOrderItem db' later newId itemIndex
         = (Failure 400 "Invalid item index", db')
       ∧ ∀ body,
           updateOrderItemSchema body = true →
           updateOrderItem db' later newId itemIndex body
             = (Failure 400 "Invalid item index", db')).
Proof.
  intros Hfresh db'.
  set (created :=
         {| clientId := or_else client "anonymous"; status := "pending";
            items := []; wishlistItems := [];
            orderCode := Some (generateOrderCode random); createdAt := now;
            updatedAt := now; closedAt := None |}).
  assert (Hdoc : orders db' !! newId = Some created).
  { unfold db', createOrder, Firestore.add. rewrite Hfresh.
    cbn [snd Firestore.update orders]. apply lookup_insert_eq. }
  split; [| split].
  - unfold getOrder. rewrite Hdoc. by eexists.
  - pose proof (where_orderCode_found db' _ newId created Hdoc eq_refl) as Hne.
    unfold getOrderByCode.
    destruct (Firestore.where_orderCode db' (generateOrderCode random))
      as [| [docId data] rest] eqn:Hq; [done |].
    eexists. split; [reflexivity |].
    by destruct (where_orderCode_elem _ _ _ _ _ Hq).
  - intros later itemIndex i Hparse. split.
    + unfold removeOrderItem. rewrite Hdoc, Hparse. cbn [items created length].
      unfold JS.lt, JS.ge.
      destruct (Z.ltb_spec i 0); [done |].
      by destruct (Z.leb_spec (Z.of_nat 0) i); [| lia].
    + intros body Hschema.
      apply (updateOrderItem_out_of_range _ _ _ _ i created); try done.
      simpl. lia.
Qed.

Lemma new_order_is_empty_witness :
  ∃ v,
    getOrder (createOrder sample_db sample_now "order3" sample_random
                (Some "") None).2 "order3" = Json 200 v
    ∧ items (view_data v) = [] ∧ view_subtotal v = 0%Q
    ∧ clientId (view_data v) = "anonymous".
Proof.
  pose proof (new_order_is_empty sample_db sample_now "order3" sample_random
                (Some "") None eq_refl) as Hnew.
  cbv zeta in Hnew.
  destruct Hnew as ((v & Hv & Hitems & _ & Hsub & _ & _ & Hclient) & _).
  exists v. by repeat split.
Defined.

(** ** The draws behind an order code *)

Lemma get_None_length (s : string) (n : nat) :
  (String.length s ≤ n)%nat → String.get n s = None.
Proof.
  revert n. induction s as [| a s IH]; intros n Hn; [done |].
  destruct n as [| n]; simpl in *; [lia |]. apply IH. lia.
Qed.

Lemma get_Some_length (s : string) (n : nat) :
  (n < String.length s)%nat → ∃ c, String.get n s = Some c.
Proof.
  revert n. induction s as [| a s IH]; intros n Hn; simpl in *; [lia |].
  destruct n as [| n]; [by eexists |]. apply IH. lia.
Qed.

Lemma get_In (s : string) (n : nat) (c : ascii) :
  String.get n s = Some c → In c (list_ascii_of_string s).
Proof.
  revert n. induction s as [| a s IH]; intros n Hn; [done |].
  destruct n as [| n]; simpl in *; [left; congruence | right; eauto].
Qed.

Lemma charAt_get (k : Z) (c : ascii) :
  0 ≤ k → JS.charAt chars k = String c EmptyString →
  String.get (Z.to_nat k) chars = Some c.
Proof.
  intros Hk. unfold JS.charAt.
  destruct (Z.ltb_spec k 0); [lia |].
  destruct (String.get (Z.to_nat k) chars); [| done]. by intros [= ->].
Qed.

(** The characters the loop has already put into [code] stay where they
    are, and round [j] of the loop puts the character selected by draw
    [i + j] right after them. *)
Lemma generate_loop_get (random : nat → Q) (m i : nat) (code : string) :
  (∀ j, (0 <= random j < 1)%Q) →
  (∀ n, (n < String.length code)%nat →
        String.get n (generate_loop random m i code) = String.get n code)
  ∧ (∀ j, (j < m)%nat →
          String.get (String.length code + j)%nat
            (generate_loop random m i code)
          = String.get (Z.to_nat (random_position (random (i + j)%nat))) chars).
Proof.
  intros Hrandom. revert i code.
  induction m as [| m IH]; intros i code; cbn [generate_loop];
    [split; [done | lia] |].
  pose proof (random_position_range _ (Hrandom i)) as Hrange.
  destruct (charAt_chars _ Hrange) as (c & Hc & _).
  rewrite Hc.
  destruct (IH (S i) (code +:+ String c EmptyString)) as [Hkept Hnext].
  rewrite length_append_char in Hkept, Hnext.
  split.
  - intros n Hn. rewrite Hkept by lia. symmetry. by apply append_correct1.
  - intros [| j] Hj.
    + rewrite !Nat.add_0_r, Hkept by lia.
      rewrite (charAt_get _ _ (proj1 Hrange) Hc).
      pose proof (append_correct2 code (String c EmptyString) 0) as Hlast.
      simpl in Hlast. by rewrite <- Hlast.
    + replace (String.length code + S j)%nat
        with (S (String.length code) + j)%nat by lia.
      rewrite Hnext by lia. by replace (S i + j)%nat with (i + S j)%nat by lia.
Qed.


(** The length of the code and where each of its characters comes from. *)
Lemma generateOrderCode_characters (random : nat → Q) :
  (∀ i, (0 <= random i < 1)%Q) →
  String.length (generateOrderCode random) = 8%nat
  ∧ (∀ n, (n < 8)%nat →
          String.get n (generateOrderCode random)
          = String.get (Z.to_nat (random_position (random n))) chars).
Proof.
  intros Hrandom. split.
  - by destruct (generate_loop_format random 8 0 "" Hrandom eq_refl).
  - intros n Hn.
    destruct (generate_loop_get random 8 0 "" Hrandom) as [_ Hnext].
    apply (Hnext n Hn).
Qed.



Lemma position_of_code_char (c : ascii) :
  is_code_char c = true →
  0 ≤ position_of c < 36
  ∧ String.get (Z.to_nat (position_of c)) chars = Some c.
Proof.
  intros Hc.
  assert (Hall : forallb
                   (fun n =>
                      let a := ascii_of_nat n in
                      implb (is_code_char a)
                        ((0 <=? position_of a) && (position_of a <? 36)
                         && bool_decide
                              (String.get (Z.to_nat (position_of a)) chars
                               = Some a)))
                   (seq 0 256) = true) by (vm_compute; reflexivity).
  rewrite forallb_forall in Hall.
  specialize (Hall (nat_of_ascii c)).
  cbv zeta in Hall. rewrite ascii_nat_embedding, Hc in Hall.
  simpl implb in Hall.
  assert (Hin : In (nat_of_ascii c) (seq 0 256)).
  { apply in_seq. pose proof (nat_ascii_bounded c). lia. }
  apply Hall in Hin.
  apply andb_true_iff in Hin as [Hin Hget].
  apply andb_true_iff in Hin as [Hlo Hhi].
  apply bool_decide_eq_true_1 in Hget. split; [lia | done].
Qed.

Lemma random_position_of_fraction (k : Z) : random_position (Qmake k 36) = k.
Proof.
  unfold random_position.
  change (inject_Z (Z.of_nat (String.length chars))) with (36 # 1)%Q.
  unfold Qmult, Qfloor. simpl Qnum. simpl Qden.
  change (Z.pos (36 * 1)) with 36. apply Z.div_mul. lia.
Qed.

(** X10. Every string of the form [^[A-Z0-9]{8}$] is an order code the
    generator can produce: the draws [position / 36] of its characters are
    all in [0, 1) and make [generateOrderCode] return exactly that
    string. *)
Theorem every_code_can_be_generated (code : string) :
  matches_order_code code = true →
  (∀ i, (0 <= draws_for code i < 1)%Q)
  ∧ generateOrderCode (draws_for code) = code.
Proof.
  unfold matches_order_code. intros Hcode.
  apply andb_true_iff in Hcode as [Hlen Hchars].
  apply Nat.eqb_eq in Hlen. rewrite forallb_forall in Hchars.
  assert (Hdraw : ∀ i c, String.get i code = Some c →
                         draws_for code i = Qmake (position_of c) 36
                         ∧ 0 ≤ position_of c < 36
                         ∧ String.get (Z.to_nat (position_of c)) chars = Some c).
  { intros i c Hi. unfold draws_for. rewrite Hi. split; [done |].
    apply position_of_code_char, Hchars. by eapply get_In. }
  assert (Hrange : ∀ i, (0 <= draws_for code i < 1)%Q).
  { intros i. destruct (String.get i code) as [c |] eqn:Hi.
    - destruct (Hdraw i c Hi) as (-> & Hpos & _).
      unfold Qle, Qlt. simpl. lia.
    - unfold draws_for. rewrite Hi. by vm_compute. }
  split; [done |].
  apply get_correct. intros n.
  destruct (decide (n < 8)%nat) as [Hn | Hn].
  - destruct (generateOrderCode_characters (draws_for code) Hrange) as [_ Hget].
    rewrite (Hget n Hn).
    destruct (get_Some_length code n) as [c Hc]; [lia |].
    destruct (Hdraw n c Hc) as (-> & _ & Hpos).
    by rewrite random_position_of_fraction, Hpos, Hc.
  - destruct (generateOrderCode_characters (draws_for code) Hrange) as [Hl _].
    rewrite !get_None_length by lia. done.
Qed.

Lemma every_code_can_be_generated_witness :
  generateOrderCode (draws_for "MATE2026") = "MATE2026".
Proof.
  by apply (every_code_can_be_generated "MATE2026").
Defined.

(** ** More on the subtotal *)

Lemma sum_price_quantity_app (l1 l2 : list OrderItem) :
  (sum_price_quantity (l1 ++ l2)
   == sum_price_quantity l1 + sum_price_quantity l2)%Q.
Proof.
  induction l1 as [| item l1 IH]; simpl; [ring | rewrite IH; ring].
Qed.

(** X11. A line item whose quantity is 0 adds nothing to the subtotal: the
    subtotal of a list holding such an item is the subtotal of the list
    without it. And the subtotal is never negative when no price and no
    quantity in the list is. *)
Theorem zero_quantity_adds_nothing
    (before after : list OrderItem) (item : OrderItem) :
  (calculateSubtotal (before ++ with_quantity 0 item :: after)
   == calculateSubtotal (before ++ after))%Q
  ∧ ((∀ x, x ∈ before ++ after → (0 <= price x)%Q ∧ 0 ≤ quantity x) →
     (0 <= calculateSubtotal (before ++ after))%Q).
Proof.
  split.
  - rewrite !calculateSubtotal_sum, !sum_price_quantity_app. simpl.
    ring.
  - generalize (before ++ after). intros l Hl.
    rewrite calculateSubtotal_sum.
    induction l as [| x l IH]; simpl; [done |].
    destruct (Hl x) as [Hprice Hquantity]; [apply list_elem_of_here |].
    assert (0 <= price x * inject_Z (quantity x))%Q.
    { apply Qmult_le_0_compat; [done |]. by rewrite <- (Zle_Qle 0). }
    assert (0 <= sum_price_quantity l)%Q.
    { apply IH. intros y Hy. apply Hl. by apply list_elem_of_further. }
    replace 0%Q with (0 + 0)%Q by done. by apply Qplus_le_compat.
Qed.

Lemma zero_quantity_adds_nothing_witness :
  (calculateSubtotal [mate; with_quantity 0 termo; bombilla]
   == calculateSubtotal [mate; bombilla])%Q
  ∧ (0 <= calculateSubtotal [mate; bombilla])%Q.
Proof.
  destruct (zero_quantity_adds_nothing [mate] [bombilla] termo)
    as [Hzero Hpos].
  split; [exact Hzero |]. apply Hpos.
  intros x Hx. apply list_elem_of_In in Hx.
  destruct Hx as [<- | [<- | []]]; split; by vm_compute.
Defined.

(** ** Adding an item: every answer *)

Lemma where_sku_nil db (s : string) :
  Firestore.where_sku db s = [] ↔ ∀ doc, doc ∈ products db → product_sku doc.2 ≠ s.
Proof.
  unfold Firestore.where_sku. split.
  - intros Hnil doc Hdoc Hsku.
    assert (Hin : doc ∈ filter (fun d => product_sku d.2 = s) (products db))
      by (by apply list_elem_of_filter).
    destruct (filter _ _); [by apply not_elem_of_nil in Hin | done].
  - intros Hnone.
    destruct (filter _ _) as [| doc rest] eqn:Hf; [done |].
    assert (Hin : doc ∈ filter (fun d => product_sku d.2 = s) (products db))
      by (rewrite Hf; apply list_elem_of_here).
    apply list_elem_of_filter in Hin as [Hsku Hin]. by destruct (Hnone doc).
Qed.

(** X12. The answers of [POST /orders/:orderId/items], in the order the
    handler decides them: Validation error for an empty SKU or a quantity
    that is not positive; else Product not found when no product carries the
    SKU; else 500 when [orderId] names no document ([doc(orderId)] or the
    read throws); else Order not found when the order is absent; else 500,
    the write being refused. It never answers 201 and never changes the
    store. *)
Theorem add_item_route_answers db now orderId body :
  let answer := (add_item_route db now orderId body).1 in
  let invalid := add_sku body = "" ∨ add_quantity body ≤ 0 in
  let known := ∃ doc, doc ∈ products db ∧ product_sku doc.2 = add_sku body in
  (invalid → answer = Failure 400 "Validation error")
  ∧ (¬ invalid → ¬ known → answer = Failure 404 "Product not found")
  ∧ (¬ invalid → known →
     ∀ message, DocumentPath.resolve orderId = Rejected message →
                answer = Failure 500 message)
  ∧ (¬ invalid → known →
     DocumentPath.resolve orderId = Resolved DocumentPath.Nested →
     answer = Failure 404 "Order not found")
  ∧ (¬ invalid → known →
     ∀ id, DocumentPath.resolve orderId = Resolved (DocumentPath.Document id) →
           (orders db !! id = None → answer = Failure 404 "Order not found")
           ∧ (is_Some (orders db !! id) →
              ∃ message, answer = Failure 500 message))
  ∧ (∀ c item, answer ≠ Json c item)
  ∧ (add_item_route db now orderId body).2 = db.
Proof.
  intros answer invalid known.
  assert (Hschema : addToOrderSchema body = false ↔ invalid).
  { unfold addToOrderSchema, invalid.
    rewrite andb_false_iff, Z.leb_gt, Z.ltb_ge.
    destruct (add_sku body) as [| a s]; cbn [String.length]; split.
    - by left.
    - by left.
    - intros [Hl | Hq]; [lia | by right].
    - intros [Hl | Hq]; [done | by right]. }
  assert (Hvalid : ¬ invalid → addToOrderSchema body = true).
  { intros Hv. apply not_false_iff_true. intros Hs. by apply Hschema in Hs. }
  assert (Hknown : known ↔ Firestore.where_sku db (add_sku body) ≠ []).
  { rewrite where_sku_nil. unfold known. split.
    - intros (doc & Hdoc & Hsku) Hnone. by apply (Hnone doc).
    - intros Hsome.
      destruct (Firestore.where_sku db (add_sku body)) as [| doc rest] eqn:Hw.
      + exfalso. apply Hsome. by apply where_sku_nil.
      + unfold Firestore.where_sku in Hw.
        assert (Hin : doc ∈ filter
                        (fun d => product_sku d.2 = add_sku body) (products db)).
        { destruct (filter _ _) as [| d l]; [done |].
          simpl in Hw. injection Hw as -> _. apply list_elem_of_here. }
        apply list_elem_of_filter in Hin as [Hsku Hin]. by exists doc. }
  assert (Hinner : ∀ id,
            addToOrderSchema body = true →
            Firestore.where_sku db (add_sku body) ≠ [] →
            (orders db !! id = None →
             (addItemToOrder db now id body).1
             = Failure 404 "Order not found")
            ∧ (is_Some (orders db !! id) →
               ∃ message, (addItemToOrder db now id body).1
                          = Failure 500 message)).
  { intros id Hs Hw. unfold addItemToOrder, validateRequest. rewrite Hs.
    destruct (Firestore.where_sku db (add_sku body)) as [| [d p] rest];
      [done |].
    split; [by intros -> |]. intros [o ->]. by eexists. }
  unfold answer, add_item_route, validateRequest.
  split; [| split; [| split; [| split; [| split; [| split]]]]].
  - intros Hi. apply Hschema in Hi. by rewrite Hi.
  - intros Hv Hk. rewrite (Hvalid Hv).
    destruct (Firestore.where_sku db (add_sku body)) as [| doc rest] eqn:Hw;
      [done |].
    exfalso. apply Hk, Hknown. done.
  - intros Hv Hk message Hpath. rewrite (Hvalid Hv).
    destruct (Firestore.where_sku db (add_sku body)) as [| doc rest] eqn:Hw;
      [by apply Hknown in Hk |].
    by rewrite Hpath.
  - intros Hv Hk Hpath. rewrite (Hvalid Hv).
    destruct (Firestore.where_sku db (add_sku body)) as [| doc rest] eqn:Hw;
      [by apply Hknown in Hk |].
    by rewrite Hpath.
  - intros Hv Hk id Hpath. rewrite (Hvalid Hv).
    apply Hknown in Hk. specialize (Hinner id (Hvalid Hv) Hk).
    destruct (Firestore.where_sku db (add_sku body)) as [| doc rest] eqn:Hw;
      [done |].
    by rewrite Hpath.
  - intros c item.
    destruct (addToOrderSchema body); [| done].
    destruct (Firestore.where_sku db (add_sku body)); [done |].
    destruct (DocumentPath.resolve orderId) as [[id |] | message];
      [| done | done].
    unfold addItemToOrder, validateRequest. by repeat case_match.
  - destruct (addToOrderSchema body); [| done].
    destruct (Firestore.where_sku db (add_sku body)); [done |].
    destruct (DocumentPath.resolve orderId) as [[id |] | message];
      [| done | done].
    apply addItemToOrder_never_writes.
Qed.

Lemma add_item_route_answers_witness :
  (add_item_route sample_db sample_now "order1"
     {| add_sku := "SKU001"; add_quantity := 0; add_color := None |}).1
    = Failure 400 "Validation error"
  ∧ (add_item_route sample_db sample_now "order1"
       {| add_sku := "SKU404"; add_quantity := 1; add_color := None |}).1
    = Failure 404 "Product not found"
  ∧ (add_item_route sample_db sample_now "order9"
       {| add_sku := "SKU001"; add_quantity := 1; add_color := None |}).1
    = Failure 404 "Order not found".
Proof.
  split; [| split].
  - pose proof (add_item_route_answers sample_db sample_now "order1"
                  {| add_sku := "SKU001"; add_quantity := 0;
                     add_color := None |}) as Hanswers.
    cbv zeta in Hanswers. destruct Hanswers as (Hinvalid & _).
    apply Hinvalid. right. simpl. lia.
  - pose proof (add_item_route_answers sample_db sample_now "order1"
                  {| add_sku := "SKU404"; add_quantity := 1;
                     add_color := None |}) as Hanswers.
    cbv zeta in Hanswers. destruct Hanswers as (_ & Hunknown & _).
    apply Hunknown.
    + intros [Hsku | Hq]; [done | simpl in Hq; lia].
    + intros (doc & Hdoc & Hsku). apply list_elem_of_In in Hdoc.
      destruct Hdoc as [<- | []]. done.
  - pose proof (add_item_route_answers sample_db sample_now "order9"
                  {| add_sku := "SKU001"; add_quantity := 1;
                     add_color := None |}) as Hanswers.
    cbv zeta in Hanswers. destruct Hanswers as (_ & _ & _ & _ & Hdoc & _).
    apply (Hdoc ltac:(intros [Hsku | Hq]; [done | simpl in Hq; lia])
             ltac:(eexists; split; [apply list_elem_of_here | reflexivity])
             "order9" eq_refl).
    reflexivity.
Defined.

(** * The middlewares and the login *)

Lemma substring_whole (s : string) : String.substring 0 (String.length s) s = s.
Proof. induction s as [| a s IH]; simpl; [done | by rewrite IH]. Qed.

(** A string with the prefix [p] is [p] followed by what [substring]
    leaves of it, and conversely. *)
Lemma prefix_split (p s : string) :
  String.prefix p s = true → s = p +:+ substring_from (String.length p) s.
Proof.
  unfold substring_from. revert s.
  induction p as [| a p IH]; intros s Hp; simpl.
  - by rewrite Nat.sub_0_r, substring_whole.
  - destruct s as [| b s]; [done |]. simpl in Hp.
    destruct (ascii_dec a b) as [-> |]; [| done].
    rewrite (IH s Hp) at 1. reflexivity.
Qed.

Lemma prefix_append (p t : string) :
  String.prefix p (p +:+ t) = true
  ∧ substring_from (String.length p) (p +:+ t) = t.
Proof.
  unfold substring_from. induction p as [| a p IH].
  - split; [by destruct t |]. simpl. by rewrite Nat.sub_0_r, substring_whole.
  - change (String a p +:+ t) with (String a (p +:+ t)). simpl.
    destruct (ascii_dec a a); [| done]. apply IH.
Qed.


Lemma bearer_header (authHeader : string) :
  bool_decide (authHeader = "") || negb (String.prefix "Bearer " authHeader)
    = false
  ↔ ∃ token, authHeader = "Bearer " +:+ token
             ∧ substring_from 7 authHeader = token.
Proof.
  split.
  - intros Hb. apply orb_false_iff in Hb as [_ Hp].
    apply negb_false_iff in Hp. exists (substring_from 7 authHeader).
    split; [| done]. by apply (prefix_split "Bearer ").
  - intros (token & -> & _). by destruct (prefix_append "Bearer " token) as [-> _].
Qed.

Lemma not_cashier_nor_admin_false (role : option string) :
  not_cashier_nor_admin role = false
  ↔ role = Some "cashier" ∨ role = Some "admin".
Proof.
  unfold not_cashier_nor_admin.
  rewrite andb_false_iff, !negb_false_iff, !bool_decide_eq_true. done.
Qed.

(** What the outcome of [cashierAuthMiddleware] says about the request;
    the common ground of the statements below. *)
Lemma cashierAuthMiddleware_guard (idp : Identity) (authorization : option string) :
  (∀ user,
     cashierAuthMiddleware idp authorization = Next user →
     ∃ token decoded,
       authorization = Some ("Bearer " +:+ token)
       ∧ verifyIdToken idp token = Resolved decoded
       ∧ (role_of idp (uid decoded) = Some "cashier"
          ∨ role_of idp (uid decoded) = Some "admin"))
  ∧ (∀ c error,
       cashierAuthMiddleware idp authorization = Reject c error →
       c = 401 ∨ c = 403).
Proof.
  unfold cashierAuthMiddleware.
  destruct authorization as [authHeader |];
    [| split; [done | intros c error [= <- _]; by left]].
  destruct (_ || _) eqn:Hheader;
    [split; [done | intros c error [= <- _]; by left] |].
  apply bearer_header in Hheader as (token & Hheader & Htoken).
  rewrite Htoken. subst authHeader. clear Htoken.
  destruct (verifyIdToken idp token) as [decoded | message] eqn:Hverify;
    [| split; [done | intros c error [= <- _]; by left]].
  destruct (not_cashier_nor_admin (role_of idp (uid decoded))) eqn:Hrole.
  - split; [done | intros c error [= <- _]; by right].
  - apply not_cashier_nor_admin_false in Hrole. split; [| done].
    intros user _. by exists token, decoded.
Qed.



(** Both middlewares have answered 401: nobody is let through. *)
Local Ltac answered_401 :=
  split; [done | split; [by intros c error [= <- <-] | done]].

(** X14. The two middlewares agree except on the role: whoever
    [cashierAuthMiddleware] lets through, [authMiddleware] lets through with
    the same [req.user]; [authMiddleware] only ever answers 401, and then
    [cashierAuthMiddleware] gives the same answer; and a verified caller
    without a role in [users] passes [authMiddleware] as a customer. *)
Theorem authMiddleware_is_the_cashier_check_without_the_role
    (idp : Identity) (authorization : option string) :
  (∀ user,
     cashierAuthMiddleware idp authorization = Next user →
     authMiddleware idp authorization = Next user)
  ∧ (∀ c error,
       authMiddleware idp authorization = Reject c error →
       c = 401 ∧ cashierAuthMiddleware idp authorization = Reject c error)
  ∧ (∀ user,
       authMiddleware idp authorization = Next user →
       role_of idp (user_uid user) = None →
       user_role user = "customer"
       ∧ ∃ error, cashierAuthMiddleware idp authorization = Reject 403 error).
Proof.
  unfold cashierAuthMiddleware, authMiddleware.
  destruct authorization as [authHeader |]; [| answered_401].
  destruct (_ || _); [answered_401 |].
  destruct (verifyIdToken idp _) as [decoded | message]; [| answered_401].
  split; [| split].
  - intros user. by destruct (not_cashier_nor_admin _).
  - done.
  - intros user [= <-]. simpl. intros ->. split; [done |]. by eexists.
Qed.

Lemma authMiddleware_is_the_cashier_check_without_the_role_witness :
  ∃ user,
    authMiddleware sample_idp (Some "Bearer tok-beto") = Next user
    ∧ user_role user = "customer" ∧ user_email user = "".
Proof.
  destruct (authMiddleware_is_the_cashier_check_without_the_role
              sample_idp (Some "Bearer tok-beto")) as (_ & _ & Hcustomer).
  exists {| user_uid := "u-beto"; user_email := ""; user_role := "customer" |}.
  split; [reflexivity |]. split; [| done].
  by apply Hcustomer.
Defined.

(** X15. The status route changes the store only for staff: if
    [PUT /orders/:orderId/status] leaves the store different from what it
    was, the request carried a Bearer token that [verifyIdToken] accepts
    and whose user has role cashier or admin, the status is one of the
    six, and the order exists. The check of the token comes first: without
    such a token the answer is the middleware's 401 or 403, also for an
    invalid status or a missing order. *)
Theorem only_staff_change_the_status
    (idp : Identity) db now authorization orderId (status : option string) :
  let route := put_order_status_route idp db now authorization orderId status in
  (route.2 ≠ db →
   (∃ token decoded,
      authorization = Some ("Bearer " +:+ token)
      ∧ verifyIdToken idp token = Resolved decoded
      ∧ (role_of idp (uid decoded) = Some "cashier"
         ∨ role_of idp (uid decoded) = Some "admin"))
   ∧ (∃ s, status = Some s ∧ s ∈ validStatuses)
   ∧ is_Some (orders db !! orderId))
  ∧ (∀ c error,
       cashierAuthMiddleware idp authorization = Reject c error →
       route = (Failure c error, db) ∧ (c = 401 ∨ c = 403)).
Proof.
  intros route. unfold route, put_order_status_route.
  pose proof (cashierAuthMiddleware_guard idp authorization) as Hguard.
  destruct (cashierAuthMiddleware idp authorization) as [user | c error].
  - split; [| done]. intros Hchanged.
    split; [by apply (proj1 Hguard user) |].
    unfold setOrderStatus in Hchanged.
    destruct status as [s |]; [| done].
    destruct (bool_decide (s ∈ validStatuses)) eqn:Hs; [| done].
    apply bool_decide_eq_true_1 in Hs.
    destruct (orders db !! orderId); [| done].
    split; [by exists s | done].
  - split; [done |]. intros c' error' [= <- <-]. split; [done |].
    by apply (proj2 Hguard c error).
Qed.

Lemma only_staff_change_the_status_witness :
  put_order_status_route sample_idp sample_db sample_now
      (Some "Bearer tok-beto") "order1" (Some "ready")
    = (Failure 403 "Forbidden: Cashier access required", sample_db)
  ∧ (put_order_status_route sample_idp sample_db sample_now
       (Some "Bearer tok-ana") "order1" (Some "ready")).1
    = Json 200 ("Status updated", "ready").
Proof.
  split; [| reflexivity].
  pose proof (only_staff_change_the_status sample_idp sample_db sample_now
                (Some "Bearer tok-beto") "order1" (Some "ready")) as Hroute.
  cbv zeta in Hroute. destruct Hroute as (_ & Hreject).
  by apply Hreject.
Defined.

(** X16. [POST /auth/login] answers with a token exactly when the body is
    valid, [getUserByEmail] finds the user, [createCustomToken] yields the
    token for its uid, and the user's role is cashier or admin. The
    password is never compared with anything: every non-empty password
    gets the same answer. *)
Theorem login_does_not_check_the_password
    (isEmail : string → bool) (idp : Identity) (body : LoginBody) :
  (∀ token,
     login isEmail idp body = Json 200 token
     ↔ isEmail (login_email body) = true
       ∧ login_password body ≠ ""
       ∧ ∃ userId,
           getUserByEmail idp (login_email body) = Resolved userId
           ∧ createCustomToken idp userId = Resolved token
           ∧ (role_of idp userId = Some "cashier"
              ∨ role_of idp userId = Some "admin"))
  ∧ (∀ password,
       login_password body ≠ "" → password ≠ "" →
       login isEmail idp
         {| login_email := login_email body; login_password := password |}
       = login isEmail idp body).
Proof.
  assert (Hpassword : ∀ p : string,
            (1 <=? Z.of_nat (String.length p)) = true ↔ p ≠ "").
  { intros p. rewrite Z.leb_le. destruct p; cbn [String.length]; split;
      try done; lia. }
  split.
  - intros token. unfold login, cashierLoginSchema.
    destruct (isEmail (login_email body)); simpl.
    2:{ split; [done | by intros [? _]]. }
    destruct (1 <=? Z.of_nat (String.length (login_password body))) eqn:Hp.
    2:{ split; [done |]. intros (_ & Hne & _). apply Hpassword in Hne.
        congruence. }
    apply Hpassword in Hp.
    destruct (getUserByEmail idp (login_email body)) as [userId | message].
    2:{ split; [done | by intros (_ & _ & ? & ? & _)]. }
    destruct (createCustomToken idp userId) as [customToken | message] eqn:Hc.
    2:{ split; [done |]. intros (_ & _ & u & [= <-] & Ht & _). congruence. }
    destruct (not_cashier_nor_admin (role_of idp userId)) eqn:Hrole.
    + split; [done |]. intros (_ & _ & u & [= <-] & _ & Hstaff).
      apply not_cashier_nor_admin_false in Hstaff. congruence.
    + apply not_cashier_nor_admin_false in Hrole. split.
      * intros [= <-]. repeat split; [done |]. by exists userId.
      * intros (_ & _ & u & [= <-] & Ht & _). congruence.
  - intros password Hold Hnew. unfold login, cashierLoginSchema. simpl.
    apply Hpassword in Hold, Hnew. by rewrite Hold, Hnew.
Qed.

Lemma login_does_not_check_the_password_witness :
  login sample_isEmail sample_idp
      {| login_email := "ana@tienda.uy"; login_password := "x" |}
    = Json 200 "custom-u-ana"
  ∧ login sample_isEmail sample_idp
      {| login_email := "ana@tienda.uy"; login_password := "anything" |}
    = login sample_isEmail sample_idp
        {| login_email := "ana@tienda.uy"; login_password := "x" |}.
Proof.
  destruct (login_does_not_check_the_password sample_isEmail sample_idp
              {| login_email := "ana@tienda.uy"; login_password := "x" |})
    as [Htoken Hany].
  split.
  - apply Htoken. repeat split; [done |].
    exists "u-ana". repeat split. by left.
  - by apply (Hany "anything").
Defined.

(** * The product routes *)

Lemma unique_skus_inj db (a b : string * Product) :
  unique_skus db → a ∈ products db → b ∈ products db →
  product_sku a.2 = product_sku b.2 → a = b.
Proof.
  unfold unique_skus. intros Hunique Ha Hb Hsku.
  apply list_elem_of_lookup in Ha as [i Hi], Hb as [j Hj].
  assert (Hij : i = j).
  { eapply NoDup_lookup; [exact Hunique | |].
    - rewrite list_lookup_fmap, Hi. reflexivity.
    - rewrite list_lookup_fmap, Hj. simpl. by rewrite Hsku. }
  subst j. congruence.
Qed.

(** X17. [GET /products/search] asks for a non-empty [sku] (400 without
    one) and puts no other condition on it; it answers 404 exactly when no
    product document carries that SKU, and otherwise returns a stored
    product with that SKU together with its document id, which is the only
    one when SKUs are unique. *)
Theorem searchProduct_finds_by_sku db (s : string) :
  s ≠ "" →
  searchProduct db None = Failure 400 "SKU parameter required"
  ∧ searchProduct db (Some "") = Failure 400 "SKU parameter required"
  ∧ (searchProduct db (Some s) = Failure 404 "Product not found"
     ↔ ∀ doc, doc ∈ products db → product_sku doc.2 ≠ s)
  ∧ (∀ c doc,
       searchProduct db (Some s) = Json c doc →
       c = 200 ∧ doc ∈ products db ∧ product_sku doc.2 = s
       ∧ (unique_skus db →
          ∀ other, other ∈ products db → product_sku other.2 = s →
                   other = doc))
  ∧ ((∃ doc, doc ∈ products db ∧ product_sku doc.2 = s) →
     ∃ doc, searchProduct db (Some s) = Json 200 doc).
Proof.
  intros Hs. unfold searchProduct.
  rewrite (bool_decide_eq_false_2 _ Hs).
  split; [done |]. split; [done |].
  pose proof (where_sku_nil db s) as Hnil.
  destruct (Firestore.where_sku db s) as [| doc rest] eqn:Hw.
  - split; [| split].
    + split; [intros _; by apply Hnil | done].
    + done.
    + intros (doc & Hdoc & Hsku). exfalso.
      by apply (proj1 Hnil eq_refl doc).
  - assert (Hin : doc ∈ products db ∧ product_sku doc.2 = s).
    { unfold Firestore.where_sku in Hw.
      assert (Hf : doc ∈ filter (fun d => product_sku d.2 = s) (products db)).
      { destruct (filter _ _) as [| d l]; [done |].
        simpl in Hw. injection Hw as -> _. apply list_elem_of_here. }
      apply list_elem_of_filter in Hf. tauto. }
    destruct Hin as [Hin Hsku].
    split; [| split].
    + split; [done |]. intros Hnone. by destruct (Hnone doc).
    + intros c d [= <- <-]. repeat split; try done.
      intros Hunique other Hother Hothersku.
      apply (unique_skus_inj db); try done. congruence.
    + intros _. by exists doc.
Qed.

Lemma searchProduct_finds_by_sku_witness :
  (∃ doc, searchProduct sample_db (Some "SKU001") = Json 200 doc
          ∧ doc.1 = "prod1")
  ∧ searchProduct sample_db (Some "SKU404")
    = Failure 404 "Product not found".
Proof.
  split.
  - eexists. split; [reflexivity | done].
  - apply (searchProduct_finds_by_sku sample_db "SKU404"); [done |].
    intros doc Hdoc. apply list_elem_of_In in Hdoc.
    by destruct Hdoc as [<- | []].
Defined.

(** ** Creating a product *)

Lemma insert_by_id_Permutation doc (l : list (string * Product)) :
  insert_by_id doc l ≡ₚ doc :: l.
Proof.
  induction l as [| d l IH]; simpl; [done |].
  destruct (String.leb doc.1 d.1); [done |].
  rewrite IH. apply Permutation_swap.
Qed.

Lemma filter_insert_by_id (P : string * Product → Prop)
    `{!∀ x, Decision (P x)} doc (l : list (string * Product)) :
  (¬ P doc → filter P (insert_by_id doc l) = filter P l)
  ∧ (P doc → filter P l = [] → filter P (insert_by_id doc l) = [doc]).
Proof.
  split.
  - intros Hdoc. induction l as [| d l IH]; simpl.
    + by rewrite filter_cons_False.
    + destruct (String.leb doc.1 d.1); [by rewrite filter_cons_False |].
      by rewrite !filter_cons, IH.
  - intros Hdoc. induction l as [| d l IH]; simpl; intros Hnone.
    + by rewrite filter_cons_True.
    + rewrite filter_cons in Hnone.
      destruct (decide (P d)) as [| Hd]; [done |].
      destruct (String.leb doc.1 d.1).
      * by rewrite filter_cons_True, filter_cons_False, Hnone.
      * by rewrite filter_cons_False, IH.
Qed.

(** X18. [POST /admin/products] keeps SKUs unique: on a catalogue without
    two products of the same SKU it answers 400 "SKU already exists" to a
    valid body whose SKU is taken, and whatever it answers, the catalogue
    afterwards still has no two products of the same SKU. It never touches
    the orders, and an answer other than 201 leaves the catalogue as it
    was. *)
Theorem createProduct_keeps_skus_unique (c : Catalog) now newId body :
  unique_skus (catalog_db c) →
  let answer := (createProduct c now newId body).1 in
  let c' := (createProduct c now newId body).2 in
  unique_skus (catalog_db c')
  ∧ orders (catalog_db c') = orders (catalog_db c)
  ∧ (createProductSchema body = true →
     (∃ doc, doc ∈ products (catalog_db c) ∧ product_sku doc.2 = new_sku body) →
     answer = Failure 400 "SKU already exists")
  ∧ (∀ code error, answer = Failure code error → c' = c).
Proof.
  intros Hunique answer c'. unfold answer, c', createProduct.
  destruct (createProductSchema body); [| by repeat split].
  pose proof (where_sku_nil (catalog_db c) (new_sku body)) as Hnil.
  destruct (Firestore.where_sku (catalog_db c) (new_sku body))
    as [| doc rest] eqn:Hw.
  2:{ by repeat split. }
  destruct (product_doc (catalog_db c) newId).
  { split; [done |]. split; [done |]. split; [| done].
    intros _ (doc & Hdoc & Hsku). by destruct (proj1 Hnil eq_refl doc). }
  cbn [fst snd catalog_db]. split; [| split; [done | split; [| done]]].
  - unfold unique_skus in *. cbn [products].
    rewrite insert_by_id_Permutation. cbn [map snd product_sku].
    apply NoDup_cons. split; [| done].
    intros Hin. apply list_elem_of_fmap in Hin as (doc & Hsku & Hdoc).
    by destruct (proj1 Hnil eq_refl doc).
  - intros _ (doc & Hdoc & Hsku). by destruct (proj1 Hnil eq_refl doc).
Qed.

Lemma createProduct_keeps_skus_unique_witness :
  unique_skus
    (catalog_db (createProduct sample_catalog sample_now "prod7" yerba_body).2)
  ∧ (createProduct sample_catalog sample_now "prod8"
       {| new_sku := "SKU001"; new_name := "Otro mate"; new_price := 10;
          new_description := None; new_image := None; new_colors := None |}).1
    = Failure 400 "SKU already exists".
Proof.
  assert (Hunique : unique_skus (catalog_db sample_catalog)).
  { unfold unique_skus. simpl. apply NoDup_singleton. }
  split.
  - by apply (createProduct_keeps_skus_unique
                sample_catalog sample_now "prod7" yerba_body).
  - pose proof (createProduct_keeps_skus_unique sample_catalog sample_now
                  "prod8"
                  {| new_sku := "SKU001"; new_name := "Otro mate";
                     new_price := 10; new_description := None;
                     new_image := None; new_colors := None |} Hunique)
      as Hcreate.
    cbv zeta in Hcreate. destruct Hcreate as (_ & _ & Htaken & _).
    apply Htaken; [reflexivity |].
    eexists. split; [apply list_elem_of_here | reflexivity].
Defined.

(** X19. A product created by [POST /admin/products] can be read back: for
    a valid body with a SKU no product carries yet (and a fresh document
    id) the answer is 201 with the id, SKU, name and price; afterwards the
    search by that SKU and the read by that id both return the new
    document, with [description] and [image] defaulting to the empty string
    and [colors] to the empty list and with both timestamps at the commit
    time; and every product that could be read by id before still can. *)
Theorem created_product_can_be_read_back (c : Catalog) now newId body :
  createProductSchema body = true →
  (∀ doc, doc ∈ products (catalog_db c) → product_sku doc.2 ≠ new_sku body) →
  product_doc (catalog_db c) newId = None →
  let data :=
    {| product_sku := new_sku body; product_name := new_name body;
       product_price := new_price body;
       product_description := or_else (new_description body) "";
       product_image := or_else (new_image body) "";
       product_colors := default [] (new_colors body) |} in
  let c' := (createProduct c now newId body).2 in
  (createProduct c now newId body).1
    = Json 201 {| created_id := newId; created_sku := new_sku body;
                  created_name := new_name body;
                  created_price := new_price body |}
  ∧ searchProduct (catalog_db c') (Some (new_sku body)) = Json 200 (newId, data)
  ∧ getProduct (catalog_db c') newId = Json 200 (newId, data)
  ∧ catalog_times c' !! newId = Some (now, now)
  ∧ (∀ id p, product_doc (catalog_db c) id = Some p →
             getProduct (catalog_db c') id = Json 200 (id, p)).
Proof.
  intros Hschema Hnew Hfresh data c'.
  assert (Hsku : new_sku body ≠ "").
  { intros Hempty. unfold createProductSchema in Hschema.
    rewrite Hempty in Hschema. done. }
  assert (Hw : Firestore.where_sku (catalog_db c) (new_sku body) = [])
    by (by apply where_sku_nil).
  assert (Hnoid : filter (fun doc : string * Product => doc.1 = newId)
                    (products (catalog_db c)) = []).
  { unfold product_doc in Hfresh.
    by destruct (filter _ (products (catalog_db c))). }
  assert (Hrun : createProduct c now newId body
                 = (Json 201 {| created_id := newId;
                                created_sku := new_sku body;
                                created_name := new_name body;
                                created_price := new_price body |},
                    {| catalog_db :=
                         {| orders := orders (catalog_db c);
                            products :=
                              insert_by_id (newId, data)
                                (products (catalog_db c)) |};
                       catalog_times :=
                         <[newId := (now, now)]> (catalog_times c) |})).
  { unfold createProduct. by rewrite Hschema, Hw, Hfresh. }
  unfold c'. rewrite Hrun. cbn [fst snd catalog_db catalog_times].
  split; [done |]. split; [| split; [| split]].
  - unfold searchProduct. rewrite (bool_decide_eq_false_2 _ Hsku).
    unfold Firestore.where_sku. cbn [products].
    destruct (filter_insert_by_id
                (fun doc : string * Product => product_sku doc.2 = new_sku body)
                (newId, data) (products (catalog_db c))) as [_ Hfound].
    rewrite Hfound; [done | done |].
    unfold Firestore.where_sku in Hw.
    by destruct (filter _ (products (catalog_db c))).
  - unfold getProduct, product_doc. cbn [products].
    destruct (filter_insert_by_id
                (fun doc : string * Product => doc.1 = newId)
                (newId, data) (products (catalog_db c))) as [_ Hfound].
    by rewrite Hfound.
  - apply lookup_insert_eq.
  - intros id p Hp. unfold getProduct.
    assert (Hid : id ≠ newId) by (intros ->; congruence).
    unfold product_doc in *. cbn [products].
    destruct (filter_insert_by_id
                (fun doc : string * Product => doc.1 = id)
                (newId, data) (products (catalog_db c))) as [Hkept _].
    rewrite Hkept by (simpl; congruence). by rewrite Hp.
Qed.

Lemma created_product_can_be_read_back_witness :
  searchProduct
    (catalog_db (createProduct sample_catalog sample_now "prod7" yerba_body).2)
    (Some "SKU777")
  = Json 200
      ("prod7",
       {| product_sku := "SKU777"; product_name := "Yerba";
          product_price := 189 # 2; product_description := "";
          product_image := ""; product_colors := [] |})
  ∧ getProduct
      (catalog_db (createProduct sample_catalog sample_now "prod7" yerba_body).2)
      "prod1"
    = Json 200
        ("prod1",
         {| product_sku := "SKU001"; product_name := "Mate";
            product_price := 100; product_description := "";
            product_image := ""; product_colors := [] |}).
Proof.
  pose proof (created_product_can_be_read_back
                sample_catalog sample_now "prod7" yerba_body) as Hread.
  cbv zeta in Hread.
  destruct Hread as (_ & Hsearch & _ & _ & Hold).
  - reflexivity.
  - intros doc Hdoc. apply list_elem_of_In in Hdoc.
    by destruct Hdoc as [<- | []].
  - reflexivity.
  - split; [exact Hsearch |]. by apply Hold.
Defined.

(** * Invariants of the order service *)

Lemma evolves_refl (o : Order) : evolves o o.
Proof. unfold evolves. repeat split; [lia | by left]. Qed.

Lemma evolves_trans (a b c : Order) : evolves a b → evolves b c → evolves a c.
Proof.
  unfold evolves.
  intros (Hcode & Hclient & Hcreated & Hcount & Hstatus)
         (Hcode' & Hclient' & Hcreated' & Hcount' & Hstatus').
  repeat split; try congruence; [lia |].
  destruct Hstatus' as [-> | [-> | ?]]; auto.
Qed.

(** Each route either leaves the store alone or rewrites the one order it
    was asked about. *)
Lemma updateOrderItem_effect db now orderId itemIndex body :
  (updateOrderItem db now orderId itemIndex body).2 = db
  ∨ ∃ o o', orders db !! orderId = Some o ∧ evolves o o'
            ∧ (updateOrderItem db now orderId itemIndex body).2
              = Firestore.update db orderId o'.
Proof.
  unfold updateOrderItem, validateRequest.
  destruct (updateOrderItemSchema body); [| by left].
  destruct (orders db !! orderId) as [o |] eqn:Ho; [| by left].
  destruct (_ || _); [by left |].
  destruct (assign_quantity _ _ _) as [od1 |] eqn:Hassign; [| by left].
  destruct (move_item _ _ _) as [od2 |] eqn:Hmove; [| by left].
  right. eexists o, _. split; [done |]. split; [| reflexivity].
  apply assign_quantity_lengths in Hassign as [Hlen1 Hwish1].
  apply move_item_lengths in Hmove.
  unfold evolves, line_items. simpl. repeat split; [| by left].
  rewrite !length_fmap, Hmove, Hlen1, Hwish1.
  unfold data. simpl. by rewrite !length_imap.
Qed.

Lemma removeOrderItem_effect db now orderId itemIndex :
  (removeOrderItem db now orderId itemIndex).2 = db
  ∨ ∃ o o', orders db !! orderId = Some o ∧ evolves o o'
            ∧ (removeOrderItem db now orderId itemIndex).2
              = Firestore.update db orderId o'.
Proof.
  unfold removeOrderItem.
  destruct (orders db !! orderId) as [o |] eqn:Ho; [| by left].
  destruct (_ || _); [by left |].
  destruct (JS.splice (items o) (JS.parseInt itemIndex) 1)
    as [removed rest] eqn:Hsplice.
  right. eexists o, _. split; [done |]. split; [| reflexivity].
  unfold evolves, line_items. cbn [snd]. simpl. repeat split; [| by left].
  destruct (splice_one _ _ _ _ Hsplice)
    as [[_ ->] | (x & n & _ & Hx & ->)]; [lia |].
  rewrite length_delete by eauto. lia.
Qed.

Lemma closeOrder_effect db now orderId :
  (closeOrder db now orderId).2 = db
  ∨ ∃ o o', orders db !! orderId = Some o ∧ evolves o o'
            ∧ (closeOrder db now orderId).2 = Firestore.update db orderId o'.
Proof.
  unfold closeOrder.
  destruct (orders db !! orderId) as [o |] eqn:Ho; [| by left].
  right. eexists o, _. split; [done |]. split; [| reflexivity].
  unfold evolves, line_items. simpl. repeat split; [lia | by right; left].
Qed.

Lemma setOrderStatus_effect db now orderId status :
  (setOrderStatus db now orderId status).2 = db
  ∨ ∃ o o', orders db !! orderId = Some o ∧ evolves o o'
            ∧ (setOrderStatus db now orderId status).2
              = Firestore.update db orderId o'.
Proof.
  unfold setOrderStatus.
  destruct status as [s |]; [| by left].
  destruct (bool_decide (s ∈ validStatuses)) eqn:Hs; [| by left].
  apply bool_decide_eq_true_1 in Hs.
  destruct (orders db !! orderId) as [o |] eqn:Ho; [| by left].
  right. eexists o, _. split; [done |]. split; [| reflexivity].
  unfold evolves, line_items. simpl. repeat split; [lia | by right; right].
Qed.

Lemma createOrder_effect db now newId random client listType :
  (createOrder db now newId random client listType).2 = db
  ∨ ∃ o', orders db !! newId = None
          ∧ items o' = [] ∧ wishlistItems o' = [] ∧ status o' = "pending"
          ∧ (createOrder db now newId random client listType).2
            = Firestore.update db newId o'.
Proof.
  unfold createOrder, Firestore.add.
  destruct (orders db !! newId) eqn:Hfresh; [by left |].
  right.
  exists {| clientId := or_else client "anonymous"; status := "pending";
            items := []; wishlistItems := [];
            orderCode := Some (generateOrderCode random); createdAt := now;
            updatedAt := now; closedAt := None |}.
  split; [done |]. do 3 (split; [reflexivity |]).
  unfold Firestore.update. cbn [snd orders products]. f_equal.
  apply insert_insert_eq.
Qed.

(** One request: an order that is in the store afterwards was there before
    and has evolved, or is a new, empty, pending order. *)
Lemma handle_step db now request (id : string) (o' : Order) :
  orders (handle db now request) !! id = Some o' →
  (∃ o, orders db !! id = Some o ∧ evolves o o')
  ∨ (orders db !! id = None
     ∧ items o' = [] ∧ wishlistItems o' = [] ∧ status o' = "pending").
Proof.
  assert (Hsame : orders db !! id = Some o' →
                  (∃ o, orders db !! id = Some o ∧ evolves o o')
                  ∨ (orders db !! id = None
                     ∧ items o' = [] ∧ wishlistItems o' = []
                     ∧ status o' = "pending")).
  { intros Ho. left. exists o'. split; [done | apply evolves_refl]. }
  assert (Hrewritten :
            ∀ db' orderId,
              (db' = db
               ∨ ∃ o o'', orders db !! orderId = Some o ∧ evolves o o''
                          ∧ db' = Firestore.update db orderId o'') →
              orders db' !! id = Some o' →
              (∃ o, orders db !! id = Some o ∧ evolves o o')
              ∨ (orders db !! id = None
                 ∧ items o' = [] ∧ wishlistItems o' = []
                 ∧ status o' = "pending")).
  { intros db' orderId [-> | (o & o'' & Ho & Hev & ->)]; [done |].
    unfold Firestore.update. simpl.
    destruct (decide (orderId = id)) as [-> | Hne].
    - rewrite lookup_insert_eq. intros [= <-]. left. by exists o.
    - by rewrite lookup_insert_ne. }
  destruct request as [newId random client listType | orderId body
                      | orderId itemIndex body | orderId itemIndex
                      | orderId | orderId status]; cbn [handle].
  - destruct (createOrder_effect db now newId random client listType)
      as [-> | (fresh & Hfresh & Hi & Hw & Hs & ->)]; [done |].
    unfold Firestore.update. simpl.
    destruct (decide (newId = id)) as [-> | Hne].
    + rewrite lookup_insert_eq. intros [= <-]. by right.
    + by rewrite lookup_insert_ne.
  - by rewrite addItemToOrder_never_writes.
  - apply (Hrewritten _ orderId), updateOrderItem_effect.
  - apply (Hrewritten _ orderId), removeOrderItem_effect.
  - apply (Hrewritten _ orderId), closeOrder_effect.
  - apply (Hrewritten _ orderId), setOrderStatus_effect.
Qed.

(** One request: no order disappears. *)
Lemma handle_keeps db now request (id : string) (o : Order) :
  orders db !! id = Some o →
  ∃ o', orders (handle db now request) !! id = Some o' ∧ evolves o o'.
Proof.
  intros Ho.
  assert (Hrewritten :
            ∀ db' orderId,
              (db' = db
               ∨ ∃ o1 o2, orders db !! orderId = Some o1 ∧ evolves o1 o2
                          ∧ db' = Firestore.update db orderId o2) →
              ∃ o', orders db' !! id = Some o' ∧ evolves o o').
  { intros db' orderId [-> | (o1 & o2 & Ho1 & Hev & ->)].
    - exists o. split; [done | apply evolves_refl].
    - unfold Firestore.update. simpl.
      destruct (decide (orderId = id)) as [-> | Hne].
      + rewrite lookup_insert_eq. exists o2. split; [done |]. congruence.
      + rewrite lookup_insert_ne by done. exists o.
        split; [done | apply evolves_refl]. }
  destruct request as [newId random client listType | orderId body
                      | orderId itemIndex body | orderId itemIndex
                      | orderId | orderId status]; cbn [handle].
  - destruct (createOrder_effect db now newId random client listType)
      as [-> | (fresh & Hfresh & _ & _ & _ & ->)].
    + exists o. split; [done | apply evolves_refl].
    + unfold Firestore.update. simpl.
      rewrite lookup_insert_ne by congruence.
      exists o. split; [done | apply evolves_refl].
  - rewrite addItemToOrder_never_writes.
    exists o. split; [done | apply evolves_refl].
  - apply (Hrewritten _ orderId), updateOrderItem_effect.
  - apply (Hrewritten _ orderId), removeOrderItem_effect.
  - apply (Hrewritten _ orderId), closeOrder_effect.
  - apply (Hrewritten _ orderId), setOrderStatus_effect.
Qed.

Lemma serve_snoc db requests now request :
  serve db (requests ++ [(now, request)])
  = handle (serve db requests) now request.
Proof. unfold serve. by rewrite fold_left_app. Qed.

(** X20. No sequence of requests to the order routes deletes an order or
    changes what identifies it: an order of the store is still there
    afterwards, with the same [orderCode], [clientId] and [createdAt], and
    with at most as many line items as it had. *)
Theorem orders_are_never_deleted
    db (requests : list (Timestamp * Request)) (id : string) (o : Order) :
  orders db !! id = Some o →
  ∃ o',
    orders (serve db requests) !! id = Some o'
    ∧ orderCode o' = orderCode o ∧ clientId o' = clientId o
    ∧ createdAt o' = createdAt o
    ∧ (line_items o' ≤ line_items o)%nat.
Proof.
  intros Ho.
  assert (Hev : ∃ o', orders (serve db requests) !! id = Some o' ∧ evolves o o').
  { revert db o Ho.
    induction requests as [| [now request] requests IH]; intros db o Ho.
    - exists o. split; [done | apply evolves_refl].
    - destruct (handle_keeps db now request id o Ho) as (o1 & Ho1 & Hev1).
      destruct (IH _ _ Ho1) as (o' & Ho' & Hev').
      exists o'. split; [done |]. by eapply evolves_trans. }
  destruct Hev as (o' & Ho' & Hcode & Hclient & Hcreated & Hcount & _).
  by exists o'.
Qed.

Lemma orders_are_never_deleted_witness :
  ∃ o',
    orders
      (serve sample_db
         [(sample_now, DeleteItem "order1" "0");
          (sample_now + 1, PostClose "order1");
          (sample_now + 2, PutStatus "order1" (Some "ready"))])
      !! "order1" = Some o'
    ∧ orderCode o' = Some "AB12CD34"
    ∧ (line_items o' ≤ 3)%nat.
Proof.
  destruct (orders_are_never_deleted sample_db
              [(sample_now, DeleteItem "order1" "0");
               (sample_now + 1, PostClose "order1");
               (sample_now + 2, PutStatus "order1" (Some "ready"))]
              "order1" sample_order)
    as (o' & Ho' & Hcode & _ & _ & Hcount); [reflexivity |].
  exists o'. by repeat split.
Defined.

(** X21. The [status] field stays within its seven values: if every order
    of the store has status closed or one of the six workflow statuses, so
    has every order after any sequence of requests. *)
Theorem statuses_stay_known db (requests : list (Timestamp * Request)) :
  (∀ id o, orders db !! id = Some o → known_status (status o)) →
  ∀ id o,
    orders (serve db requests) !! id = Some o → known_status (status o).
Proof.
  revert db. induction requests as [| [now request] requests IH];
    intros db Hknown; [done |].
  apply IH. intros id o' Ho'.
  destruct (handle_step db now request id o' Ho')
    as [(o & Ho & _ & _ & _ & _ & Hstatus) | (_ & _ & _ & ->)].
  - destruct Hstatus as [-> | [-> | Hvalid]].
    + by apply (Hknown id).
    + by left.
    + by right.
  - right. by apply validStatuses_elem; left.
Qed.

Lemma statuses_stay_known_witness :
  ∃ o,
    orders
      (serve sample_db
         [(sample_now, PostOrder "order3" sample_random None None);
          (sample_now + 1, PostClose "order1");
          (sample_now + 2, PutStatus "order2" (Some "shipped"))])
      !! "order1" = Some o
    ∧ status o = "closed" ∧ known_status (status o).
Proof.
  eexists. split; [reflexivity |]. split; [reflexivity |].
  apply (statuses_stay_known sample_db
           [(sample_now, PostOrder "order3" sample_random None None);
            (sample_now + 1, PostClose "order1");
            (sample_now + 2, PutStatus "order2" (Some "shipped"))]
           ) with (id := "order1"); [| reflexivity].
  intros id o Ho.
  assert (H1 : orders sample_db !! "order1" = Some sample_order) by reflexivity.
  assert (H2 : orders sample_db !! "order2" = Some wish_order) by reflexivity.
  destruct (decide (id = "order1")) as [-> | Hne1].
  - rewrite H1 in Ho. injection Ho as <-.
    right. apply validStatuses_elem. by left.
  - destruct (decide (id = "order2")) as [-> | Hne2].
    + rewrite H2 in Ho. injection Ho as <-.
      right. apply validStatuses_elem. by right; left.
    + unfold sample_db in Ho. cbn [orders] in Ho.
      rewrite lookup_insert_ne, lookup_singleton_ne in Ho by done.
      done.
Defined.

(** X22. No request puts a line item into an order: if every order of the
    store is empty (as in a store without orders), every order is empty
    after any sequence of requests, with [items] and [wishlistItems] both
    the empty list. *)
Theorem orders_stay_empty db (requests : list (Timestamp * Request)) :
  (∀ id o, orders db !! id = Some o → line_items o = 0%nat) →
  ∀ id o,
    orders (serve db requests) !! id = Some o →
    items o = [] ∧ wishlistItems o = [].
Proof.
  intros Hempty id o Ho.
  assert (Hzero : line_items o = 0%nat).
  { revert db Hempty Ho.
    induction requests as [| [now request] requests IH]; intros db Hempty Ho.
    - by apply (Hempty id).
    - apply (IH (handle db now request)); [| done].
      intros id' o' Ho'.
      destruct (handle_step db now request id' o' Ho')
        as [(o0 & Ho0 & _ & _ & _ & Hcount & _) | (_ & Hi & Hw & _)].
      + specialize (Hempty id' o0 Ho0). lia.
      + unfold line_items. by rewrite Hi, Hw. }
  unfold line_items in Hzero.
  destruct (items o), (wishlistItems o); simpl in Hzero; done || lia.
Qed.

Lemma orders_stay_empty_witness :
  ∃ o,
    orders
      (serve {| orders := ∅; products := products sample_db |}
         [(sample_now, PostOrder "order3" sample_random None None);
          (sample_now + 1,
           PostItem "order3"
             {| add_sku := "SKU001"; add_quantity := 2; add_color := None |});
          (sample_now + 2,
           PutItem "order3" "abc"
             {| upd_quantity := None; upd_listType := None |})])
      !! "order3" = Some o
    ∧ items o = [] ∧ wishlistItems o = [].
Proof.
  eexists. split; [reflexivity |].
  apply (orders_stay_empty {| orders := ∅; products := products sample_db |}
           [(sample_now, PostOrder "order3" sample_random None None);
            (sample_now + 1,
             PostItem "order3"
               {| add_sku := "SKU001"; add_quantity := 2; add_color := None |});
            (sample_now + 2,
             PutItem "order3" "abc"
               {| upd_quantity := None; upd_listType := None |})])
    with (id := "order3"); [| reflexivity].
  intros id o Ho. cbn [orders] in Ho. by rewrite lookup_empty in Ho.
Defined.
